(** * SBLLmalloc: the page-deduplication layer and its allocation index

    A shallow embedding of [AVL.cpp] (the allocation index) and of
    [SharedHeap.cpp] (allocation path, write-fault handler, merge engine,
    merge policies, join of the sibling cohort), followed by the properties
    of the specification that were checked against it.

    Conventions of the embedding.
    - [uintptr_t], [size_t] and [unsigned long] are 64-bit: values are [Z]
      in [0, 2^64) and every addition or subtraction the source performs on
      them is wrapped with [u64].  [intptr_t] casts are [s64].  The [int]
      counters of the source are kept as unbounded [Z]: they count pages of
      a 3 GiB window and tree heights.
    - A computation that the source can only leave by aborting the process
      ([Fatal], [die], a failed [ASSERTX], a dereference of a null pointer)
      yields [None].
    - The build is the one selected by [SharedHeap.h]: [SHARED_STATS],
      [COLLECT_MALLOC_STAT] and [PRINT_STATS] are defined, [MREMAP_FIXED]
      is available, [__x86_64__] is the target; [ENABLE_PROFILER],
      [PROFILE_BASED_MERGE], [PART_BLOCK_MERGE_STAT], [REPORT_MERGES],
      [MICROTIME_STAT], [ENABLE_CHECKS] and [PRINT_DEBUG_MSG] are not. *)

From Stdlib Require Import ZArith List Bool Lia.
Import ListNotations.
Open Scope Z_scope.

(** ** Machine integers and the error monad *)

Definition u64 (x : Z) : Z := x mod 2 ^ 64.

Definition s64 (x : Z) : Z :=
  let y := x mod 2 ^ 64 in if y <? 2 ^ 63 then y else y - 2 ^ 64.

Definition s32 (x : Z) : Z :=
  let y := x mod 2 ^ 32 in if y <? 2 ^ 31 then y else y - 2 ^ 32.

Definition obind {A B : Type} (m : option A) (f : A -> option B) : option B :=
  match m with
  | Some a => f a
  | None => None
  end.

Notation "x <- m ;; k" := (obind m (fun x => k))
  (at level 61, m at next level, right associativity).
Notation "' pat <- m ;; k" := (obind m (fun x => match x with pat => k end))
  (at level 61, pat pattern, m at next level, right associativity).

(** ** AVL.h, AVL.cpp: the allocation index *)

(** [struct AVLTreeNode].  [creator] and [callStack] (the provenance
    captured at allocation) are left out: nothing below reads them. *)
Inductive AVLTreeNode : Type :=
| NULL : AVLTreeNode
| Node (key value height : Z) (left right : AVLTreeNode) (dirty : Z)
  : AVLTreeNode.

(** [struct AVLTreeData]. *)
Record AVLTreeData : Type := mkAVLTreeData {
  root : AVLTreeNode;
  comparator : Z -> Z -> Z;
  size : Z
}.

(** [MyComparator] of SharedHeap.cpp, the comparator the index is created
    with: the sign of the wrapped difference read as [intptr_t]. *)
Definition MyComparator (key1 key2 : Z) : Z :=
  let diff := s64 (u64 (key1 - key2)) in
  if diff =? 0 then 0 else if diff >? 0 then 1 else -1.

Definition CreateAVL (cmp : Z -> Z -> Z) : AVLTreeData :=
  mkAVLTreeData NULL cmp 0.

Definition GetHeight (node : AVLTreeNode) : Z :=
  match node with
  | Node _ _ h _ _ _ => h
  | NULL => 0
  end.

Definition GetBalance (node : AVLTreeNode) : Z :=
  match node with
  | NULL => 0
  | Node _ _ _ l r _ =>
      let balance := 0 in
      let balance :=
        match l with Node _ _ lh _ _ _ => balance - lh | NULL => balance end in
      let balance :=
        match r with Node _ _ rh _ _ _ => balance + rh | NULL => balance end in
      balance
  end.

(** [RotateSingleRight]: [e] is the node, [d] its left child, [a], [b] the
    children of [d], [c] the right child of [e].  Both [left] and [right]
    are read from [b], as in the source. *)
Definition RotateSingleRight (node : AVLTreeNode) : option AVLTreeNode :=
  match node with
  | Node ek ev _ (Node dk dv _ a b dd) c ed =>
      let left := GetHeight b in
      let right := GetHeight b in
      let eh := (if left >? right then left else right) + 1 in
      Some (Node dk dv (eh + 1) a (Node ek ev eh b c ed) dd)
  | _ => None
  end.

(** [RotateSingleLeft]: [d] is the node, [e] its right child. *)
Definition RotateSingleLeft (node : AVLTreeNode) : option AVLTreeNode :=
  match node with
  | Node dk dv _ a (Node ek ev _ b c ed) dd =>
      let left := GetHeight a in
      let right := GetHeight b in
      let dh := (if left >? right then left else right) + 1 in
      Some (Node ek ev (dh + 1) (Node dk dv dh a b dd) c ed)
  | _ => None
  end.

Definition RotateDoubleRight (node : AVLTreeNode) : option AVLTreeNode :=
  match node with
  | Node k v h l r d =>
      l' <- RotateSingleLeft l ;;
      RotateSingleRight (Node k v h l' r d)
  | NULL => None
  end.

Definition RotateDoubleLeft (node : AVLTreeNode) : option AVLTreeNode :=
  match node with
  | Node k v h l r d =>
      r' <- RotateSingleRight r ;;
      RotateSingleLeft (Node k v h l r' d)
  | NULL => None
  end.

(** [Balance]: rotate when the stored heights of the children differ by
    more than one, then recompute the stored height of the (new) node. *)
Definition Balance (node : AVLTreeNode) : option AVLTreeNode :=
  let balance := GetBalance node in
  rotated <-
    (if balance <? -1 then
       match node with
       | Node _ _ _ l _ _ =>
           let balance := GetBalance l in
           if balance >? 0 then RotateDoubleRight node
           else RotateSingleRight node
       | NULL => None
       end
     else if balance >? 1 then
       match node with
       | Node _ _ _ _ r _ =>
           let balance := GetBalance r in
           if balance <? 0 then RotateDoubleLeft node
           else RotateSingleLeft node
       | NULL => None
       end
     else Some node) ;;
  match rotated with
  | Node k v _ l r d =>
      let left := GetHeight l in
      let right := GetHeight r in
      Some (Node k v ((if left >? right then left else right) + 1) l r d)
  | NULL => None
  end.

Definition is_null (node : AVLTreeNode) : bool :=
  match node with NULL => true | Node _ _ _ _ _ _ => false end.

(** [Insert].  The result is the value already stored under [key] (0, the
    null pointer, when the key is new), the updated [data->size] and the
    updated subtree.  The root case writes [dirty = 0]; the two cases that
    hang the new node under an existing one never write [np->dirty], so the
    field keeps whatever the small-object heap handed out: [garbage]. *)
Fixpoint Insert (cmp : Z -> Z -> Z) (garbage : Z) (sz : Z)
    (node : AVLTreeNode) (key value : Z) : option (Z * Z * AVLTreeNode) :=
  match node with
  | NULL => Some (0, sz + 1, Node key value 1 NULL NULL 0)
  | Node k v h l r d =>
      let rc := cmp key k in
      if rc <? 0 then
        match l with
        | Node _ _ _ _ _ _ =>
            '(result, sz', l') <- Insert cmp garbage sz l key value ;;
            node' <- Balance (Node k v h l' r d) ;;
            Some (result, sz', node')
        | NULL =>
            let np := Node key value 1 NULL NULL garbage in
            let h' :=
              if (negb (is_null r) && is_null np)
                 || (negb (is_null np) && is_null r)
              then h + 1 else h in
            node' <- Balance (Node k v h' np r d) ;;
            Some (0, sz + 1, node')
        end
      else if rc >? 0 then
        match r with
        | Node _ _ _ _ _ _ =>
            '(result, sz', r') <- Insert cmp garbage sz r key value ;;
            node' <- Balance (Node k v h l r' d) ;;
            Some (result, sz', node')
        | NULL =>
            let np := Node key value 1 NULL NULL garbage in
            let h' :=
              if (negb (is_null np) && is_null l)
                 || (negb (is_null l) && is_null np)
              then h + 1 else h in
            node' <- Balance (Node k v h' l np d) ;;
            Some (0, sz + 1, node')
        end
      else Some (v, sz, node)
  end.

(** [InsertAVL]: [Insert] at the root, then one more [Balance] of the root. *)
Definition InsertAVL (garbage : Z) (tree : AVLTreeData) (key value : Z)
  : option (Z * AVLTreeData) :=
  '(result, sz', root') <-
     Insert (comparator tree) garbage (size tree) (root tree) key value ;;
  root'' <- Balance root' ;;
  Some (result, mkAVLTreeData root'' (comparator tree) sz').

(** [RemoveLeftMost]: the key and value of the unlinked node (all the
    caller reads of it) and the remaining subtree. *)
Fixpoint RemoveLeftMost (node : AVLTreeNode)
  : option (Z * Z * AVLTreeNode) :=
  match node with
  | NULL => None
  | Node k v h l r d =>
      match l with
      | Node _ _ _ _ _ _ =>
          '(lk, lv, l') <- RemoveLeftMost l ;;
          let lh := match l' with Node _ _ x _ _ _ => x + 1 | NULL => 0 end in
          let rh := match r with Node _ _ x _ _ _ => x + 1 | NULL => 0 end in
          node' <- Balance (Node k v (if rh >? lh then rh else lh) l' r d) ;;
          Some (lk, lv, node')
      | NULL => Some (k, v, r)
      end
  end.

Fixpoint RemoveRightMost (node : AVLTreeNode)
  : option (Z * Z * AVLTreeNode) :=
  match node with
  | NULL => None
  | Node k v h l r d =>
      match r with
      | Node _ _ _ _ _ _ =>
          '(rk, rv, r') <- RemoveRightMost r ;;
          let lh := match l with Node _ _ x _ _ _ => x + 1 | NULL => 0 end in
          let rh := match r' with Node _ _ x _ _ _ => x + 1 | NULL => 0 end in
          node' <- Balance (Node k v (if rh >? lh then rh else lh) l r' d) ;;
          Some (rk, rv, node')
      | NULL => Some (k, v, l)
      end
  end.

(** [Remove].  When the node is found and has a child, the key and value
    of its in-order neighbour are moved into it; [dirty] stays. *)
Fixpoint Remove (cmp : Z -> Z -> Z) (sz : Z) (node : AVLTreeNode) (key : Z)
  : option (Z * Z * AVLTreeNode) :=
  match node with
  | NULL => Some (0, sz, NULL)
  | Node k v h l r d =>
      let rc := cmp key k in
      if rc <? 0 then
        '(result, sz', l') <- Remove cmp sz l key ;;
        node' <- Balance (Node k v h l' r d) ;;
        Some (result, sz', node')
      else if rc >? 0 then
        '(result, sz', r') <- Remove cmp sz r key ;;
        node' <- Balance (Node k v h l r' d) ;;
        Some (result, sz', node')
      else
        let result := v in
        match r, l with
        | Node _ _ _ _ _ _, _ =>
            '(nk, nv, r') <- RemoveLeftMost r ;;
            node' <- Balance (Node nk nv h l r' d) ;;
            Some (result, sz - 1, node')
        | NULL, Node _ _ _ _ _ _ =>
            '(nk, nv, l') <- RemoveRightMost l ;;
            node' <- Balance (Node nk nv h l' r d) ;;
            Some (result, sz - 1, node')
        | NULL, NULL => Some (result, sz - 1, NULL)
        end
  end.

Definition RemoveAVL (tree : AVLTreeData) (key : Z)
  : option (Z * AVLTreeData) :=
  '(result, sz', root') <- Remove (comparator tree) (size tree) (root tree) key ;;
  Some (result, mkAVLTreeData root' (comparator tree) sz').

(** The [while] loop of [FindAVL]. *)
Fixpoint FindAVL_loop (cmp : Z -> Z -> Z) (np : AVLTreeNode) (key : Z) : Z :=
  match np with
  | NULL => 0
  | Node k v _ l r _ =>
      let rc := cmp key k in
      if rc <? 0 then FindAVL_loop cmp l key
      else if rc >? 0 then FindAVL_loop cmp r key
      else v
  end.

Definition FindAVL (tree : AVLTreeData) (key : Z) : Z :=
  FindAVL_loop (comparator tree) (root tree) key.

(** The [while] loop of [FindRangeAVL]; the result is the node reached
    ([NULL] when the loop runs off the tree). *)
Fixpoint FindRangeAVL_loop (cmp : Z -> Z -> Z) (np : AVLTreeNode) (key : Z)
  : AVLTreeNode :=
  match np with
  | NULL => NULL
  | Node k v _ l r _ =>
      let rc := cmp key k in
      if rc <? 0 then FindRangeAVL_loop cmp l key
      else if rc >? 0 then
        if u64 (k + v) >? key then np
        else FindRangeAVL_loop cmp r key
      else np
  end.

Definition FindRangeAVL (tree : AVLTreeData) (key : Z) : AVLTreeNode :=
  FindRangeAVL_loop (comparator tree) (root tree) key.

(** [n->dirty = 1] through the pointer [FindRangeAVL] returned, as the
    write-fault handler does: the same descent, writing the field of the
    node it stops at. *)
Fixpoint FindRangeAVL_set_dirty (cmp : Z -> Z -> Z) (np : AVLTreeNode)
    (key : Z) : AVLTreeNode :=
  match np with
  | NULL => NULL
  | Node k v h l r d =>
      let rc := cmp key k in
      if rc <? 0 then Node k v h (FindRangeAVL_set_dirty cmp l key) r d
      else if rc >? 0 then
        if u64 (k + v) >? key then Node k v h l r 1
        else Node k v h l (FindRangeAVL_set_dirty cmp r key) d
      else Node k v h l r 1
  end.

(** [Traverse]: in order; the visitor receives key, value and (through
    [isDirty]) the dirty flag, which it may rewrite, and threads a state. *)
Fixpoint Traverse {S : Type} (func : Z -> Z -> Z -> S -> option (Z * S))
    (node : AVLTreeNode) (s : S) : option (AVLTreeNode * S) :=
  match node with
  | NULL => Some (NULL, s)
  | Node k v h l r d =>
      '(l', s1) <- Traverse func l s ;;
      '(d', s2) <- func k v d s1 ;;
      '(r', s3) <- Traverse func r s2 ;;
      Some (Node k v h l' r' d', s3)
  end.

Definition TraverseAVL {S : Type} (tree : AVLTreeData)
    (func : Z -> Z -> Z -> S -> option (Z * S)) (s : S)
  : option (AVLTreeData * S) :=
  '(root', s') <- Traverse func (root tree) s ;;
  Some (mkAVLTreeData root' (comparator tree) (size tree), s').

(** *** Reading the tree *)

(** The true height of a subtree, counted in nodes. *)
Fixpoint true_height (t : AVLTreeNode) : Z :=
  match t with
  | NULL => 0
  | Node _ _ _ l r _ => Z.max (true_height l) (true_height r) + 1
  end.

(** Every stored height field equals the true height. *)
Fixpoint heights_exact (t : AVLTreeNode) : bool :=
  match t with
  | NULL => true
  | Node _ _ h l r _ =>
      (h =? true_height t) && heights_exact l && heights_exact r
  end.

(** The true heights of the two subtrees of every node differ by at most
    one. *)
Fixpoint balanced (t : AVLTreeNode) : bool :=
  match t with
  | NULL => true
  | Node _ _ _ l r _ =>
      (Z.abs (true_height l - true_height r) <=? 1)
      && balanced l && balanced r
  end.

(** The regions of a tree, in order: (base, size) pairs. *)
Fixpoint regions (t : AVLTreeNode) : list (Z * Z) :=
  match t with
  | NULL => []
  | Node k v _ l r _ => regions l ++ (k, v) :: regions r
  end.

(** [InsertAVL] of a list of (base, size) pairs, left to right. *)
Fixpoint insert_all (garbage : Z) (tree : AVLTreeData) (kvs : list (Z * Z))
  : option AVLTreeData :=
  match kvs with
  | [] => Some tree
  | (k, v) :: rest =>
      '(_, tree') <- InsertAVL garbage tree k v ;;
      insert_all garbage tree' rest
  end.

(** ** SharedHeap.h, SharedHeap.cpp: globals *)

(** [enum _MERGE_METRICS]. *)
Definition MERGE_DISABLED : Z := 0.
Definition ALLOC_FREQUENCY : Z := 1.
Definition THRESHOLD : Z := 2.
Definition BUFFERED : Z := 3.
Definition NUM_METRIC : Z := 4.

Definition MALLOC_REF_FREQ : Z := 1000.
Definition BUFFER_LENGTH : Z := 10000.
Definition MMAP_BUFFER_SIZE : Z := 4 * 1024 * 1024.

(** [(void * ) -1]. *)
Definition MAP_FAILED : Z := u64 (-1).

(** What backs a mapped byte: anonymous private memory, or the byte at
    [offset] of the shared backing file [/PSMallocTest]. *)
Inductive Backing : Type :=
| Anonymous : Backing
| SharedFile (offset : Z) : Backing.

Record Mapping : Type := mkMapping {
  backing : Backing;
  writable : bool
}.

(** The globals that are written during initialisation only. *)
Record Env : Type := mkEnv {
  PAGE_SIZE : Z;
  log2PAGE_SIZE : Z;
  sharedHeapBottom : Z;
  sharedHeapTop : Z;
  numProc : Z;
  myRank : Z;
  currProcMask : Z;
  currProcMaskInverted : Z;
  zeroPage : Z;
  mergeMetric : Z;
  maxMmapCount : Z
}.

(** The page bookkeeping of one process, the shared metadata arena, and
    the part of the kernel the layer talks to.
    - [initializedPagesBV], [zeroPagesBV]: the two [char] arrays, a byte
      (as its bit pattern, 0..255) per index.
    - [sharingProcessesInfo]: the holder bitmap, one entry of [numProc]
      bits per page index; [None] is the null pointer.
    - [aliveProcs], [sharedPageCount], [allProcPrivatePageCount],
      [baseCaseTotalPageCount]: the shared counters, dereferenced.
    - [vm]: the mapping that covers each virtual address, if any; [mem]:
      the contents of anonymous memory by virtual address; [shfile]: the
      contents of the shared file by offset.
    - [kernel]: the answers [mmap64] will give, in order: [MAP_FAILED] for a
      refusal, otherwise the address chosen for a request without
      [MAP_FIXED] (any other answer grants a [MAP_FIXED] request at the
      address asked for).  An exhausted list refuses. *)
Record Pages : Type := mkPages {
  mmapCount : Z;
  zeroPageCount : Z;
  initializedPagesBV : Z -> Z;
  zeroPagesBV : Z -> Z;
  sharingProcessesInfo : option (Z -> Z);
  aliveProcs : Z;
  sharedPageCount : Z;
  allProcPrivatePageCount : Z;
  baseCaseTotalPageCount : Z;
  vm : Z -> option Mapping;
  mem : Z -> Z;
  shfile : Z -> Z;
  kernel : list Z
}.

(** The remaining globals.  [allocRecord] is [None] while the pointer is
    null.  [countDownTimer] is the [static] local of [MergeByTHRESHOLD].
    [heap_garbage] is what a fresh block of the small-object heap holds
    where [Insert] leaves [np->dirty] unwritten.  The statistics buffer
    [memStat], [outFile], [errno] and the semaphore are not modelled: one
    process is followed, and nothing below reads the statistics. *)
Record State : Type := mkState {
  env : Env;
  pages : Pages;
  allocRecord : option AVLTreeData;
  isMPIInitialized : bool;
  isMPIFinalized : bool;
  notMPIApp : Z;
  mergeMinMemTh : Z;
  mallocRefFreq : Z;
  mallocRefCounter : Z;
  countDownTimer : Z;
  bufferOfDirtyPages : Z -> Z;
  bufferPtr : Z;
  heap_garbage : Z
}.

(** Field updates. *)
Definition set_mmapCount (x : Z) (pg : Pages) : Pages :=
  mkPages x (zeroPageCount pg) (initializedPagesBV pg) (zeroPagesBV pg)
    (sharingProcessesInfo pg) (aliveProcs pg) (sharedPageCount pg)
    (allProcPrivatePageCount pg) (baseCaseTotalPageCount pg) (vm pg)
    (mem pg) (shfile pg) (kernel pg).
Definition set_zeroPageCount (x : Z) (pg : Pages) : Pages :=
  mkPages (mmapCount pg) x (initializedPagesBV pg) (zeroPagesBV pg)
    (sharingProcessesInfo pg) (aliveProcs pg) (sharedPageCount pg)
    (allProcPrivatePageCount pg) (baseCaseTotalPageCount pg) (vm pg)
    (mem pg) (shfile pg) (kernel pg).
Definition set_initializedPagesBV (x : Z -> Z) (pg : Pages) : Pages :=
  mkPages (mmapCount pg) (zeroPageCount pg) x (zeroPagesBV pg)
    (sharingProcessesInfo pg) (aliveProcs pg) (sharedPageCount pg)
    (allProcPrivatePageCount pg) (baseCaseTotalPageCount pg) (vm pg)
    (mem pg) (shfile pg) (kernel pg).
Definition set_zeroPagesBV (x : Z -> Z) (pg : Pages) : Pages :=
  mkPages (mmapCount pg) (zeroPageCount pg) (initializedPagesBV pg) x
    (sharingProcessesInfo pg) (aliveProcs pg) (sharedPageCount pg)
    (allProcPrivatePageCount pg) (baseCaseTotalPageCount pg) (vm pg)
    (mem pg) (shfile pg) (kernel pg).
Definition set_sharingProcessesInfo (x : option (Z -> Z)) (pg : Pages)
  : Pages :=
  mkPages (mmapCount pg) (zeroPageCount pg) (initializedPagesBV pg)
    (zeroPagesBV pg) x (aliveProcs pg) (sharedPageCount pg)
    (allProcPrivatePageCount pg) (baseCaseTotalPageCount pg) (vm pg)
    (mem pg) (shfile pg) (kernel pg).
Definition set_aliveProcs (x : Z) (pg : Pages) : Pages :=
  mkPages (mmapCount pg) (zeroPageCount pg) (initializedPagesBV pg)
    (zeroPagesBV pg) (sharingProcessesInfo pg) x (sharedPageCount pg)
    (allProcPrivatePageCount pg) (baseCaseTotalPageCount pg) (vm pg)
    (mem pg) (shfile pg) (kernel pg).
Definition set_sharedPageCount (x : Z) (pg : Pages) : Pages :=
  mkPages (mmapCount pg) (zeroPageCount pg) (initializedPagesBV pg)
    (zeroPagesBV pg) (sharingProcessesInfo pg) (aliveProcs pg) x
    (allProcPrivatePageCount pg) (baseCaseTotalPageCount pg) (vm pg)
    (mem pg) (shfile pg) (kernel pg).
Definition set_allProcPrivatePageCount (x : Z) (pg : Pages) : Pages :=
  mkPages (mmapCount pg) (zeroPageCount pg) (initializedPagesBV pg)
    (zeroPagesBV pg) (sharingProcessesInfo pg) (aliveProcs pg)
    (sharedPageCount pg) x (baseCaseTotalPageCount pg) (vm pg)
    (mem pg) (shfile pg) (kernel pg).
Definition set_baseCaseTotalPageCount (x : Z) (pg : Pages) : Pages :=
  mkPages (mmapCount pg) (zeroPageCount pg) (initializedPagesBV pg)
    (zeroPagesBV pg) (sharingProcessesInfo pg) (aliveProcs pg)
    (sharedPageCount pg) (allProcPrivatePageCount pg) x (vm pg)
    (mem pg) (shfile pg) (kernel pg).
Definition set_vm (x : Z -> option Mapping) (pg : Pages) : Pages :=
  mkPages (mmapCount pg) (zeroPageCount pg) (initializedPagesBV pg)
    (zeroPagesBV pg) (sharingProcessesInfo pg) (aliveProcs pg)
    (sharedPageCount pg) (allProcPrivatePageCount pg)
    (baseCaseTotalPageCount pg) x (mem pg) (shfile pg) (kernel pg).
Definition set_mem (x : Z -> Z) (pg : Pages) : Pages :=
  mkPages (mmapCount pg) (zeroPageCount pg) (initializedPagesBV pg)
    (zeroPagesBV pg) (sharingProcessesInfo pg) (aliveProcs pg)
    (sharedPageCount pg) (allProcPrivatePageCount pg)
    (baseCaseTotalPageCount pg) (vm pg) x (shfile pg) (kernel pg).
Definition set_shfile (x : Z -> Z) (pg : Pages) : Pages :=
  mkPages (mmapCount pg) (zeroPageCount pg) (initializedPagesBV pg)
    (zeroPagesBV pg) (sharingProcessesInfo pg) (aliveProcs pg)
    (sharedPageCount pg) (allProcPrivatePageCount pg)
    (baseCaseTotalPageCount pg) (vm pg) (mem pg) x (kernel pg).
Definition set_kernel (x : list Z) (pg : Pages) : Pages :=
  mkPages (mmapCount pg) (zeroPageCount pg) (initializedPagesBV pg)
    (zeroPagesBV pg) (sharingProcessesInfo pg) (aliveProcs pg)
    (sharedPageCount pg) (allProcPrivatePageCount pg)
    (baseCaseTotalPageCount pg) (vm pg) (mem pg) (shfile pg) x.

Definition set_env (x : Env) (st : State) : State :=
  mkState x (pages st) (allocRecord st) (isMPIInitialized st)
    (isMPIFinalized st) (notMPIApp st) (mergeMinMemTh st) (mallocRefFreq st)
    (mallocRefCounter st) (countDownTimer st) (bufferOfDirtyPages st)
    (bufferPtr st) (heap_garbage st).
Definition set_pages (x : Pages) (st : State) : State :=
  mkState (env st) x (allocRecord st) (isMPIInitialized st)
    (isMPIFinalized st) (notMPIApp st) (mergeMinMemTh st) (mallocRefFreq st)
    (mallocRefCounter st) (countDownTimer st) (bufferOfDirtyPages st)
    (bufferPtr st) (heap_garbage st).
Definition set_allocRecord (x : option AVLTreeData) (st : State) : State :=
  mkState (env st) (pages st) x (isMPIInitialized st)
    (isMPIFinalized st) (notMPIApp st) (mergeMinMemTh st) (mallocRefFreq st)
    (mallocRefCounter st) (countDownTimer st) (bufferOfDirtyPages st)
    (bufferPtr st) (heap_garbage st).
Definition set_isMPIInitialized (x : bool) (st : State) : State :=
  mkState (env st) (pages st) (allocRecord st) x
    (isMPIFinalized st) (notMPIApp st) (mergeMinMemTh st) (mallocRefFreq st)
    (mallocRefCounter st) (countDownTimer st) (bufferOfDirtyPages st)
    (bufferPtr st) (heap_garbage st).
Definition set_isMPIFinalized (x : bool) (st : State) : State :=
  mkState (env st) (pages st) (allocRecord st) (isMPIInitialized st)
    x (notMPIApp st) (mergeMinMemTh st) (mallocRefFreq st)
    (mallocRefCounter st) (countDownTimer st) (bufferOfDirtyPages st)
    (bufferPtr st) (heap_garbage st).
Definition set_mergeMinMemTh (x : Z) (st : State) : State :=
  mkState (env st) (pages st) (allocRecord st) (isMPIInitialized st)
    (isMPIFinalized st) (notMPIApp st) x (mallocRefFreq st)
    (mallocRefCounter st) (countDownTimer st) (bufferOfDirtyPages st)
    (bufferPtr st) (heap_garbage st).
Definition set_mallocRefCounter (x : Z) (st : State) : State :=
  mkState (env st) (pages st) (allocRecord st) (isMPIInitialized st)
    (isMPIFinalized st) (notMPIApp st) (mergeMinMemTh st) (mallocRefFreq st)
    x (countDownTimer st) (bufferOfDirtyPages st)
    (bufferPtr st) (heap_garbage st).
Definition set_countDownTimer (x : Z) (st : State) : State :=
  mkState (env st) (pages st) (allocRecord st) (isMPIInitialized st)
    (isMPIFinalized st) (notMPIApp st) (mergeMinMemTh st) (mallocRefFreq st)
    (mallocRefCounter st) x (bufferOfDirtyPages st)
    (bufferPtr st) (heap_garbage st).
Definition set_buffer (buf : Z -> Z) (ptr : Z) (st : State) : State :=
  mkState (env st) (pages st) (allocRecord st) (isMPIInitialized st)
    (isMPIFinalized st) (notMPIApp st) (mergeMinMemTh st) (mallocRefFreq st)
    (mallocRefCounter st) (countDownTimer st) buf ptr (heap_garbage st).

(** ** The kernel, as far as the layer uses it *)

Definition upd (a : Z -> Z) (i v : Z) : Z -> Z :=
  fun j => if j =? i then v else a j.

Definition in_range (base len a : Z) : bool :=
  (base <=? a) && (a <? base + len).

(** [mmap64(addr, len, prot, flags, fd, offset)].  [prot_write] is
    [PROT_WRITE], [fixed] is [MAP_FIXED]; [file] is [None] for an anonymous
    private mapping and [Some offset] for a shared mapping of the backing
    file.  A granted mapping replaces what was mapped in the range; fresh
    anonymous memory reads as zero.  Every length the layer passes is a
    multiple of the page size. *)
Definition mmap64 (addr len : Z) (prot_write fixed : bool) (file : option Z)
    (pg : Pages) : Z * Pages :=
  match kernel pg with
  | [] => (MAP_FAILED, pg)
  | k :: ks =>
      if k =? MAP_FAILED then (MAP_FAILED, set_kernel ks pg)
      else
        let r := if fixed then addr else k in
        let vm' := fun a =>
          if in_range r len a then
            Some (mkMapping
                    match file with
                    | None => Anonymous
                    | Some off => SharedFile (off + (a - r))
                    end
                    prot_write)
          else vm pg a in
        let mem' :=
          match file with
          | None => fun a => if in_range r len a then 0 else mem pg a
          | Some _ => mem pg
          end in
        (r, set_mem mem' (set_vm vm' (set_kernel ks pg)))
  end.

(** [munmap], [mprotect] and [mremap(old, len, len,
    MREMAP_MAYMOVE | MREMAP_FIXED, new)].  The source asserts that they
    succeed wherever it checks them; here they always do. *)
Definition munmap (addr len : Z) (pg : Pages) : Pages :=
  set_vm (fun a => if in_range addr len a then None else vm pg a) pg.

Definition mprotect (addr len : Z) (prot_write : bool) (pg : Pages) : Pages :=
  set_vm (fun a =>
            if in_range addr len a
            then option_map (fun m => mkMapping (backing m) prot_write) (vm pg a)
            else vm pg a) pg.

Definition mremap (old len new : Z) (pg : Pages) : Pages :=
  set_mem (fun a => if in_range new len a then mem pg (old + (a - new))
                    else mem pg a)
    (set_vm (fun a => if in_range new len a then vm pg (old + (a - new))
                      else if in_range old len a then None
                      else vm pg a) pg).

(** The [SH_MMAP] and [SH_UNMAP] macros: count, then call. *)
Definition SH_MMAP (addr len : Z) (prot_write fixed : bool) (file : option Z)
    (pg : Pages) : Z * Pages :=
  mmap64 addr len prot_write fixed file (set_mmapCount (mmapCount pg + 1) pg).

Definition SH_UNMAP (addr len : Z) (pg : Pages) : Pages :=
  munmap addr len (set_mmapCount (mmapCount pg - 1) pg).

(** Reading and writing a byte through the mapping that covers it.  A read
    of an unmapped address raises a fault that is not a write fault, which
    [SigSegvHandler] answers with [Fatal].  [store] is the write the layer
    itself performs, into memory it has just mapped read-write. *)
Definition load (pg : Pages) (a : Z) : option Z :=
  match vm pg a with
  | Some m =>
      Some match backing m with
           | Anonymous => mem pg a
           | SharedFile o => shfile pg o
           end
  | None => None
  end.

Definition store (pg : Pages) (a v : Z) : option Pages :=
  match vm pg a with
  | Some m =>
      if writable m then
        Some match backing m with
             | Anonymous => set_mem (upd (mem pg) a v) pg
             | SharedFile o => set_shfile (upd (shfile pg) o v) pg
             end
      else None
  | None => None
  end.

Fixpoint load_range (pg : Pages) (a : Z) (n : nat) : option (list Z) :=
  match n with
  | O => Some []
  | S n' =>
      x <- load pg a ;;
      xs <- load_range pg (a + 1) n' ;;
      Some (x :: xs)
  end.

Fixpoint store_range (pg : Pages) (a : Z) (xs : list Z) : option Pages :=
  match xs with
  | [] => Some pg
  | x :: xs' =>
      pg' <- store pg a x ;;
      store_range pg' (a + 1) xs'
  end.

Fixpoint bytes_eqb (xs ys : list Z) : bool :=
  match xs, ys with
  | [], [] => true
  | x :: xs', y :: ys' => (x =? y) && bytes_eqb xs' ys'
  | _, _ => false
  end.

Definition memcpy (dst src n : Z) (pg : Pages) : option Pages :=
  xs <- load_range pg src (Z.to_nat n) ;;
  store_range pg dst xs.

Definition memset (dst c n : Z) (pg : Pages) : option Pages :=
  store_range pg dst (repeat c (Z.to_nat n)).

(** [memcmp]: 0 when the ranges are equal; only that is ever tested. *)
Definition memcmp (a b n : Z) (pg : Pages) : option Z :=
  xs <- load_range pg a (Z.to_nat n) ;;
  ys <- load_range pg b (Z.to_nat n) ;;
  Some (if bytes_eqb xs ys then 0 else 1).

(** The values [s] takes in [for (s = 0; s < len; s += step)], for a
    positive [step] ([PAGE_SIZE] is asserted positive at initialisation). *)
Definition offsets (len step : Z) : list Z :=
  map (fun i => Z.of_nat i * step)
      (seq 0 (Z.to_nat ((len + step - 1) / step))).

(** ** Misc routines *)

(** [TranslateMmapAddr] on x86_64: the offset in the heap window, or
    [Fatal]. *)
Definition TranslateMmapAddr (e : Env) (addr : Z) : option Z :=
  if (addr >? sharedHeapBottom e) && (addr <? sharedHeapTop e)
  then Some (u64 (addr - sharedHeapBottom e))
  else None.

Definition IsCloseToMmapLimit (newRequest : Z) : bool := false.

Definition Addr2PageIndex (e : Env) (address : Z) : option Z :=
  off <- TranslateMmapAddr e address ;;
  Some (Z.shiftr off (log2PAGE_SIZE e)).

(** [FloorLog2] and [CeilLog2]; -1 for 0. *)
Definition FloorLog2 (n : Z) : Z :=
  if n =? 0 then -1 else
  let p := 0 in
  let '(p, n) := if negb (Z.land n 4294901760 =? 0)
                 then (p + 16, Z.shiftr n 16) else (p, n) in
  let '(p, n) := if negb (Z.land n 65280 =? 0)
                 then (p + 8, Z.shiftr n 8) else (p, n) in
  let '(p, n) := if negb (Z.land n 240 =? 0)
                 then (p + 4, Z.shiftr n 4) else (p, n) in
  let '(p, n) := if negb (Z.land n 12 =? 0)
                 then (p + 2, Z.shiftr n 2) else (p, n) in
  if negb (Z.land n 2 =? 0) then p + 1 else p.

Definition CeilLog2 (n : Z) : Z := FloorLog2 (u64 (n - 1)) + 1.

(** ** Bit manipulation routines *)

Definition popcount_step (x : Z) : Z := Z.land x (x - 1).

(** [for (count = 0; x; count++) x &= (x-1);] on an entry of at most 16
    bits. *)
Fixpoint popcount_loop (fuel : nat) (x count : Z) : Z :=
  match fuel with
  | O => count
  | S fuel' =>
      if x =? 0 then count
      else popcount_loop fuel' (popcount_step x) (count + 1)
  end.

Definition CountSharingProcs (e : Env) (pg : Pages) (addr : Z) : option Z :=
  match sharingProcessesInfo pg with
  | Some info =>
      index <- Addr2PageIndex e addr ;;
      let x := if numProc e =? 8 then info index mod 2 ^ 8
               else info index mod 2 ^ 16 in
      Some (popcount_loop 16 x 0)
  | None => Some 0
  end.

Definition SetSharingBit (e : Env) (addr : Z) (pg : Pages) : option Pages :=
  match sharingProcessesInfo pg with
  | Some info =>
      index <- Addr2PageIndex e addr ;;
      if numProc e =? 8 then
        Some (set_sharingProcessesInfo
                (Some (upd info index
                         (Z.lor (info index) (currProcMask e) mod 2 ^ 8))) pg)
      else if numProc e =? 16 then
        Some (set_sharingProcessesInfo
                (Some (upd info index
                         (Z.lor (info index) (currProcMask e) mod 2 ^ 16))) pg)
      else None
  | None => Some pg
  end.

Definition UnsetSharingBit (e : Env) (addr : Z) (pg : Pages) : option Pages :=
  match sharingProcessesInfo pg with
  | Some info =>
      index <- Addr2PageIndex e addr ;;
      if numProc e =? 8 then
        Some (set_sharingProcessesInfo
                (Some (upd info index
                         (Z.land (info index) (currProcMaskInverted e)
                          mod 2 ^ 8))) pg)
      else if numProc e =? 16 then
        Some (set_sharingProcessesInfo
                (Some (upd info index
                         (Z.land (info index) (currProcMaskInverted e)
                          mod 2 ^ 16))) pg)
      else None
  | None => Some pg
  end.

Definition GetSharingBit (e : Env) (pg : Pages) (addr : Z) : option bool :=
  match sharingProcessesInfo pg with
  | Some info =>
      index <- Addr2PageIndex e addr ;;
      if numProc e =? 8 then
        Some (negb (Z.land (info index mod 2 ^ 8) (currProcMask e) =? 0))
      else if numProc e =? 16 then
        Some (negb (Z.land (info index mod 2 ^ 16) (currProcMask e) =? 0))
      else None
  | None => Some false
  end.

Definition IsOtherSharing (e : Env) (pg : Pages) (addr : Z) : option bool :=
  match sharingProcessesInfo pg with
  | Some info =>
      index <- Addr2PageIndex e addr ;;
      if numProc e =? 8 then
        Some (negb (Z.land (info index mod 2 ^ 8)
                      (currProcMaskInverted e) =? 0))
      else if numProc e =? 16 then
        Some (negb (Z.land (info index mod 2 ^ 16)
                      (currProcMaskInverted e) =? 0))
      else None
  | None => Some false
  end.

(** The routines on a [char] bit vector take the array by pointer: here
    they take the array and return the updated one. *)
Definition GetBit (e : Env) (array : Z -> Z) (page_address : Z)
  : option bool :=
  index <- Addr2PageIndex e page_address ;;
  Some (negb (Z.land (array (Z.shiftr index 3))
                     (Z.shiftl 1 (Z.land index 7)) =? 0)).

Definition SetBit (e : Env) (array : Z -> Z) (page_address : Z)
  : option (Z -> Z) :=
  index <- Addr2PageIndex e page_address ;;
  Some (upd array (Z.shiftr index 3)
          (Z.lor (array (Z.shiftr index 3)) (Z.shiftl 1 (Z.land index 7))
           mod 2 ^ 8)).

Definition UnsetBit (e : Env) (array : Z -> Z) (page_address : Z)
  : option (Z -> Z) :=
  index <- Addr2PageIndex e page_address ;;
  Some (upd array (Z.shiftr index 3)
          (Z.land (array (Z.shiftr index 3))
                  (Z.lnot (Z.shiftl 1 (Z.land index 7)))
           mod 2 ^ 8)).

(** The [while (bsize > 0)] loop of [SetMultiBits]; [bsize] drops by at
    least one per round, so [bsize] rounds of fuel are enough. *)
Fixpoint SetMultiBits_loop (fuel : nat) (array : Z -> Z) (index bsize : Z)
  : Z -> Z :=
  match fuel with
  | O => array
  | S fuel' =>
      if bsize >? 0 then
        if (index mod 8 =? 0) && (bsize >=? 8) then
          SetMultiBits_loop fuel' (upd array (Z.shiftr index 3) 255)
            (index + 8) (bsize - 8)
        else
          SetMultiBits_loop fuel'
            (upd array (Z.shiftr index 3)
               (Z.lor (array (Z.shiftr index 3))
                      (Z.shiftl 1 (Z.land index 7)) mod 2 ^ 8))
            (index + 1) (bsize - 1)
      else array
  end.

Definition SetMultiBits (e : Env) (array : Z -> Z) (page_address len : Z)
  : option (Z -> Z) :=
  index <- Addr2PageIndex e page_address ;;
  let bsize := s32 (Z.shiftr len (log2PAGE_SIZE e)) in
  Some (SetMultiBits_loop (Z.to_nat bsize) array index bsize).

Definition SetAndReturnBit (e : Env) (array : Z -> Z) (page_address : Z)
  : option (bool * (Z -> Z)) :=
  index <- Addr2PageIndex e page_address ;;
  let mask := Z.shiftl 1 (Z.land index 7) in
  let s_index := s32 (Z.shiftr index 3) in
  let ret_val := Z.land (array s_index) mask in
  Some (negb (ret_val =? 0),
        upd array s_index (Z.lor (array s_index) mask mod 2 ^ 8)).

Definition ResetAndReturnBit (e : Env) (array : Z -> Z) (page_address : Z)
  : option (bool * (Z -> Z)) :=
  index <- Addr2PageIndex e page_address ;;
  let mask := Z.shiftl 1 (Z.land index 7) in
  let inv_mask := Z.lnot mask in
  let s_index := s32 (Z.shiftr index 3) in
  let ret_val := Z.land (array s_index) mask in
  Some (negb (ret_val =? 0),
        upd array s_index (Z.land (array s_index) inv_mask mod 2 ^ 8)).

(** ** Page permission routines *)

Definition MakeReadOnlyWrapper (addr len : Z) (pg : Pages) : Pages :=
  mprotect addr len false pg.

Definition MakeReadWriteWrapper (addr len : Z) (pg : Pages) : Pages :=
  mprotect addr len true pg.

Definition compare_pages (e : Env) (a b : Z) (pg : Pages) : option Z :=
  memcmp a b (PAGE_SIZE e) pg.

(** ** Shared page manipulation routines *)

(** [GetSharedRegion].  The branch for a null [addr] cannot be reached:
    [TranslateMmapAddr] has already refused address 0. *)
Definition GetSharedRegion (e : Env) (addr : Z) (isFixed : bool) (len : Z)
    (pg : Pages) : option (Z * Pages) :=
  page_address <- TranslateMmapAddr e addr ;;
  if page_address <? 3221225472 then
    if negb (addr =? 0) then
      Some (SH_MMAP (if isFixed then addr else 0) len true isFixed
              (Some page_address) pg)
    else None
  else None.

Definition GetSharedPage (e : Env) (addr : Z) (isFixed : bool) (pg : Pages)
  : option (Z * Pages) :=
  GetSharedRegion e addr isFixed (PAGE_SIZE e) pg.

(** Running a loop body over the values of the loop variable. *)
Fixpoint for_each {S : Type} (body : Z -> S -> option S) (xs : list Z) (s : S)
  : option S :=
  match xs with
  | [] => Some s
  | x :: xs' => s' <- body x s ;; for_each body xs' s'
  end.

(** [CopyAndRemapRegion]: publish private pages to the shared file. *)
Definition CopyAndRemapRegion (e : Env) (start len : Z) (pg : Pages)
  : option (Z * Pages) :=
  '(p0, pg) <- GetSharedRegion e start false len pg ;;
  if p0 =? MAP_FAILED then Some (-1, pg)
  else
    pg <- memcpy p0 start len pg ;;
    let pg := mremap p0 len start pg in
    pg <- for_each (fun s pg => SetSharingBit e (u64 (start + s)) pg)
            (offsets len (PAGE_SIZE e)) pg ;;
    Some (0, MakeReadOnlyWrapper start len pg).

(** [RemapRegion]: join the copy that siblings already share. *)
Definition RemapRegion (e : Env) (start len : Z) (pg : Pages)
  : option (Z * Pages) :=
  '(p0, pg) <- GetSharedRegion e start true len pg ;;
  if p0 =? MAP_FAILED then Some (-1, pg)
  else if negb (p0 =? start) then None
  else
    pg <- for_each
            (fun s pg =>
               let p := u64 (start + s) in
               cnt <- CountSharingProcs e pg p ;;
               let pg :=
                 if cnt =? 1 then
                   set_allProcPrivatePageCount (allProcPrivatePageCount pg - 1)
                     (set_sharedPageCount (sharedPageCount pg + 1) pg)
                 else pg in
               let pg :=
                 set_allProcPrivatePageCount (allProcPrivatePageCount pg - 1)
                   pg in
               SetSharingBit e p pg)
            (offsets len (PAGE_SIZE e)) pg ;;
    Some (0, MakeReadOnlyWrapper start len pg).

(** The [for] loop of [RemapToZero]: one [MAP_FIXED] mapping of frame 0 per
    page; [inr] is the early [return -1]. *)
Fixpoint RemapToZero_loop (e : Env) (start : Z) (ss : list Z) (pg : Pages)
  : Pages + Pages :=
  match ss with
  | [] => inl pg
  | s :: ss' =>
      if IsCloseToMmapLimit 0 then inr pg
      else
        let p := u64 (start + s) in
        let '(p, pg) := SH_MMAP p (PAGE_SIZE e) false true (Some 0) pg in
        if p =? MAP_FAILED then inr pg
        else
          let pg := set_zeroPageCount (zeroPageCount pg + 1) pg in
          let pg :=
            set_allProcPrivatePageCount (allProcPrivatePageCount pg - 1) pg in
          RemapToZero_loop e start ss' pg
  end.

(** [RemapToZero]: the zero bits are written after the loop. *)
Definition RemapToZero (e : Env) (start len : Z) (pg : Pages)
  : option (Z * Pages) :=
  match RemapToZero_loop e start (offsets len (PAGE_SIZE e)) pg with
  | inr pg => Some (-1, pg)
  | inl pg =>
      bv <- (if len >? PAGE_SIZE e
             then SetMultiBits e (zeroPagesBV pg) start len
             else SetBit e (zeroPagesBV pg) start) ;;
      Some (0, set_zeroPagesBV bv pg)
  end.

(** ** The merge engine *)

(** The locals of [MergeManyPages] that live across iterations.  Pointers
    are addresses, 0 for null. *)
Record MergeLoop : Type := mkMergeLoop {
  counter_pages_merged : Z;
  last_page_zero : bool;
  last_page_moveable : bool;
  last_page_shareable : bool;
  mergeable_start_addr : Z;
  index : Z;
  mmap_buffer : Z
}.

Definition open_run (p : Z) (z m s : bool) (l : MergeLoop) : MergeLoop :=
  mkMergeLoop (counter_pages_merged l) z m s p (index l) (mmap_buffer l).

(** The macro [FLUSH_OUTSTANDING_MERGES(start, end, lps, lpm, lpz, caddr)]:
    remap the open run, whatever the remap routine returns, and close it. *)
Definition FLUSH_OUTSTANDING_MERGES (e : Env) (end_ : Z) (l : MergeLoop)
    (pg : Pages) : option (MergeLoop * Pages) :=
  let start := mergeable_start_addr l in
  '(counter, pg) <-
    (if negb (start =? 0) then
       let len := u64 (end_ - start) in
       pg <- (if last_page_shareable l
              then '(_, pg) <- RemapRegion e start len pg ;; Some pg
              else Some pg) ;;
       pg <- (if last_page_moveable l
              then '(_, pg) <- CopyAndRemapRegion e start len pg ;; Some pg
              else Some pg) ;;
       pg <- (if last_page_zero l
              then '(_, pg) <- RemapToZero e start len pg ;; Some pg
              else Some pg) ;;
       Some (if last_page_shareable l || last_page_zero l
             then counter_pages_merged l + len / PAGE_SIZE e
             else counter_pages_merged l, pg)
     else Some (counter_pages_merged l, pg)) ;;
  Some (mkMergeLoop counter false false false 0 (index l) (mmap_buffer l), pg).

(** One round of the [for] loop of [MergeManyPages], after the test of
    [IsCloseToMmapLimit]. *)
Definition MergeManyPages_body (e : Env) (start_addr s : Z) (l : MergeLoop)
    (pg : Pages) : option (MergeLoop * Pages) :=
  let p := u64 (start_addr + s) in
  '(l, pg) <-
    (if (index l =? 0) || (index l =? 4 * 1024 * 1024) then
       let pg := if negb (mmap_buffer l =? 0)
                 then SH_UNMAP (mmap_buffer l) MMAP_BUFFER_SIZE pg else pg in
       '(buf, pg) <- GetSharedRegion e p false MMAP_BUFFER_SIZE pg ;;
       Some (mkMergeLoop (counter_pages_merged l) (last_page_zero l)
               (last_page_moveable l) (last_page_shareable l)
               (mergeable_start_addr l) 0 buf, pg)
     else Some (l, pg)) ;;
  let curr_page_ptr := u64 (mmap_buffer l + index l) in
  let l := mkMergeLoop (counter_pages_merged l) (last_page_zero l)
             (last_page_moveable l) (last_page_shareable l)
             (mergeable_start_addr l) (index l + PAGE_SIZE e)
             (mmap_buffer l) in
  let z := last_page_zero l in
  let m := last_page_moveable l in
  let sh := last_page_shareable l in
  if (if negb (mergeable_start_addr l =? 0)
      then (z || sh || m) && negb ((z && sh) || (z && m) || (sh && m))
      else negb z && negb sh && negb m)
  then
    is_initialized_page <- GetBit e (initializedPagesBV pg) p ;;
    if negb is_initialized_page then FLUSH_OUTSTANDING_MERGES e p l pg
    else
    is_zero_page <- GetBit e (zeroPagesBV pg) p ;;
    if is_zero_page then FLUSH_OUTSTANDING_MERGES e p l pg
    else
    is_shared_page <- GetSharingBit e pg p ;;
    if is_shared_page then FLUSH_OUTSTANDING_MERGES e p l pg
    else
    diff0 <- compare_pages e p (zeroPage e) pg ;;
    if diff0 =? 0 then
      if negb (mergeable_start_addr l =? 0) then
        if last_page_zero l then Some (l, pg)
        else
          '(l, pg) <- FLUSH_OUTSTANDING_MERGES e p l pg ;;
          Some (open_run p true (last_page_moveable l)
                  (last_page_shareable l) l, pg)
      else Some (open_run p true (last_page_moveable l)
                   (last_page_shareable l) l, pg)
    else
    other <- IsOtherSharing e pg p ;;
    if negb other then
      if negb (mergeable_start_addr l =? 0) then
        if last_page_moveable l then Some (l, pg)
        else
          '(l, pg) <- FLUSH_OUTSTANDING_MERGES e p l pg ;;
          Some (open_run p (last_page_zero l) true
                  (last_page_shareable l) l, pg)
      else Some (open_run p (last_page_zero l) true
                   (last_page_shareable l) l, pg)
    else
      '(l, pg) <- (if negb (last_page_shareable l)
                   then FLUSH_OUTSTANDING_MERGES e p l pg
                   else Some (l, pg)) ;;
      diff <- compare_pages e curr_page_ptr p pg ;;
      if diff =? 0 then
        if mergeable_start_addr l =? 0
        then Some (open_run p (last_page_zero l) (last_page_moveable l)
                     true l, pg)
        else Some (l, pg)
      else FLUSH_OUTSTANDING_MERGES e p l pg
  else None.

(** The [for] loop; [inr] is the early [return counter_pages_merged]. *)
Fixpoint MergeManyPages_loop (e : Env) (start_addr : Z) (ss : list Z)
    (l : MergeLoop) (pg : Pages)
  : option (MergeLoop * Pages + Z * Pages) :=
  match ss with
  | [] => Some (inl (l, pg))
  | s :: ss' =>
      if IsCloseToMmapLimit 0 then
        let pg := if negb (mmap_buffer l =? 0)
                  then SH_UNMAP (mmap_buffer l) MMAP_BUFFER_SIZE pg else pg in
        Some (inr (counter_pages_merged l, pg))
      else
        '(l, pg) <- MergeManyPages_body e start_addr s l pg ;;
        MergeManyPages_loop e start_addr ss' l pg
  end.

(** [MergeManyPages]: the number of pages merged. *)
Definition MergeManyPages (e : Env) (start_addr len : Z) (pg : Pages)
  : option (Z * Pages) :=
  match sharingProcessesInfo pg with
  | None => None
  | Some _ =>
      r <- MergeManyPages_loop e start_addr (offsets len (PAGE_SIZE e))
             (mkMergeLoop 0 false false false 0 0 0) pg ;;
      match r with
      | inr out => Some out
      | inl (l, pg) =>
          let pg := if negb (mmap_buffer l =? 0)
                    then SH_UNMAP (mmap_buffer l) MMAP_BUFFER_SIZE pg
                    else pg in
          let p := u64 (start_addr + len) in
          '(l, pg) <- FLUSH_OUTSTANDING_MERGES e p l pg ;;
          Some (counter_pages_merged l, pg)
      end
  end.

(** [MergePages]: the one-page merge of the buffered policy. *)
Definition MergePages (e : Env) (p : Z) (pg : Pages) : option (Z * Pages) :=
  match sharingProcessesInfo pg with
  | None => None
  | Some _ =>
      shared <- GetSharingBit e pg p ;;
      if shared then Some (0, pg)
      else
        other <- IsOtherSharing e pg p ;;
        if negb other then
          '(p0, pg) <- GetSharedPage e p false pg ;;
          pg <- memcpy p0 p (PAGE_SIZE e) pg ;;
          let pg := mremap p0 (PAGE_SIZE e) p pg in
          pg <- SetSharingBit e p pg ;;
          Some (0, MakeReadOnlyWrapper p (PAGE_SIZE e) pg)
        else
          '(p0, pg) <- GetSharedPage e p false pg ;;
          if p0 =? MAP_FAILED then None
          else
            diff <- compare_pages e p0 p pg ;;
            if diff =? 0 then
              cnt <- CountSharingProcs e pg p ;;
              let pg :=
                if cnt =? 1 then
                  set_allProcPrivatePageCount (allProcPrivatePageCount pg - 1)
                    (set_sharedPageCount (sharedPageCount pg + 1) pg)
                else pg in
              let pg :=
                set_allProcPrivatePageCount (allProcPrivatePageCount pg - 1)
                  pg in
              let pg := mremap p0 (PAGE_SIZE e) p pg in
              pg <- SetSharingBit e p pg ;;
              Some (1, MakeReadOnlyWrapper p (PAGE_SIZE e) pg)
            else Some (0, SH_UNMAP p0 (PAGE_SIZE e) pg)
  end.

(** [MergeNode2], the visitor of the merge pass: key is the base of the
    region, value its size; the dirty flag is read and cleared through
    [isDirty]. *)
Definition MergeNode2 (e : Env) (key value dirty : Z) (pg : Pages)
  : option (Z * Pages) :=
  let addr := key in
  let len := value in
  off <- TranslateMmapAddr e addr ;;
  if off =? 0 then Some (dirty, pg)
  else if IsCloseToMmapLimit (s32 len) then Some (dirty, pg)
  else if negb (dirty =? 0) then
    '(_, pg) <- MergeManyPages e addr len pg ;;
    Some (0, pg)
  else Some (dirty, pg).

(** One merge pass: [TraverseAVL((AVLTree * )allocRecord, MergeNode2)]. *)
Definition merge_pass (e : Env) (tree : AVLTreeData) (pg : Pages)
  : option (AVLTreeData * Pages) :=
  TraverseAVL tree (MergeNode2 e) pg.

(** ** The allocation index of the process *)

Definition AspaceAvlInsertWrapper (start_addr len : Z) (st : State)
  : option State :=
  match allocRecord st with
  | Some tree =>
      '(_, tree') <- InsertAVL (heap_garbage st) tree start_addr len ;;
      Some (set_allocRecord (Some tree') st)
  | None => Some st
  end.

Definition AspaceAvlRemoveWrapper (start_addr : Z) (st : State)
  : option (Z * State) :=
  match allocRecord st with
  | Some tree =>
      '(res, tree') <- RemoveAVL tree start_addr ;;
      Some (s64 res, set_allocRecord (Some tree') st)
  | None => Some (0, st)
  end.

Definition AspaceAvlSearchWrapper (start_addr : Z) (st : State) : Z :=
  match allocRecord st with
  | Some tree => FindAVL tree start_addr
  | None => 0
  end.

Definition AspaceAvlSearchRangeWrapper (start_addr : Z) (st : State)
  : AVLTreeNode :=
  match allocRecord st with
  | Some tree => FindRangeAVL tree start_addr
  | None => NULL
  end.

(** ** Merge policies *)

Definition CheckMPIInitialized (st : State) : bool :=
  isMPIInitialized st || negb (notMPIApp st =? 0).

(** [TraverseAVL((AVLTree * )allocRecord, MergeNode2)] on the globals. *)
Definition TraverseAVL_MergeNode2 (st : State) : option State :=
  match allocRecord st with
  | Some tree =>
      '(tree', pg') <- merge_pass (env st) tree (pages st) ;;
      Some (set_pages pg' (set_allocRecord (Some tree') st))
  | None => None
  end.

(** [MergeByALLOC_FREQUENCY]; the remainder by a zero frequency kills the
    process. *)
Definition MergeByALLOC_FREQUENCY (st : State) : option State :=
  let st := set_mallocRefCounter (u64 (mallocRefCounter st + 1)) st in
  if u64 (mallocRefFreq st) =? 0 then None
  else if mallocRefCounter st mod u64 (mallocRefFreq st) =? 0 then
    st <- TraverseAVL_MergeNode2 st ;;
    Some (set_mallocRefCounter 0 st)
  else Some st.

(** [MergeByTHRESHOLD]. *)
Definition MergeByTHRESHOLD (st : State) : option State :=
  let st := set_countDownTimer (countDownTimer st - 1) st in
  if countDownTimer st =? 0 then
    let st := set_countDownTimer 100 st in
    if allProcPrivatePageCount (pages st) + sharedPageCount (pages st)
       >=? mergeMinMemTh st
    then
      let st :=
        set_mergeMinMemTh
          (allProcPrivatePageCount (pages st) + sharedPageCount (pages st))
          st in
      TraverseAVL_MergeNode2 st
    else Some st
  else Some st.

(** The [for] loop of [MergeByBUFFERED]; its [break] cannot be taken. *)
Fixpoint MergeByBUFFERED_loop (e : Env) (buffer : Z -> Z) (idx : list Z)
    (pg : Pages) : option Pages :=
  match idx with
  | [] => Some pg
  | i :: idx' =>
      let t := buffer i in
      if IsCloseToMmapLimit 0 then Some pg
      else
        off <- TranslateMmapAddr e t ;;
        if off =? 0 then MergeByBUFFERED_loop e buffer idx' pg
        else
          init <- GetBit e (initializedPagesBV pg) t ;;
          pg <- (if init then '(_, pg) <- MergePages e t pg ;; Some pg
                 else Some pg) ;;
          MergeByBUFFERED_loop e buffer idx' pg
  end.

Definition MergeByBUFFERED (st : State) : option State :=
  pg <- MergeByBUFFERED_loop (env st) (bufferOfDirtyPages st)
          (map Z.of_nat (seq 0 (Z.to_nat BUFFER_LENGTH))) (pages st) ;;
  Some (set_buffer (bufferOfDirtyPages st) 0 (set_pages pg st)).

(** ** The write-fault handler *)

(** [SigSegvHandler]; [si_addr] is the faulting address and [writefault]
    is [si_code & SEGV_ACCERR]. *)
Definition SigSegvHandler (si_addr : Z) (writefault : bool) (st : State)
  : option State :=
  let e := env st in
  let faultaddr := u64 (si_addr / PAGE_SIZE e * PAGE_SIZE e) in
  if writefault then
    st <-
      (if mergeMetric e =? BUFFERED then
         st <- (if bufferPtr st =? BUFFER_LENGTH
                then MergeByBUFFERED st else Some st) ;;
         Some (set_buffer
                 (upd (bufferOfDirtyPages st) (bufferPtr st) faultaddr)
                 (bufferPtr st + 1) st)
       else if negb (mergeMetric e =? MERGE_DISABLED) then
         match allocRecord st with
         | Some tree =>
             Some (set_allocRecord
                     (Some (mkAVLTreeData
                              (FindRangeAVL_set_dirty (comparator tree)
                                 (root tree) faultaddr)
                              (comparator tree) (size tree))) st)
         | None => Some st
         end
       else Some st) ;;
    let pg := pages st in
    '(is_initialized_page, bv) <-
       SetAndReturnBit e (initializedPagesBV pg) faultaddr ;;
    let pg := set_initializedPagesBV bv pg in
    pg <-
      (if negb is_initialized_page then
         let pg :=
           set_allProcPrivatePageCount (allProcPrivatePageCount pg + 1) pg in
         let pg :=
           set_baseCaseTotalPageCount (baseCaseTotalPageCount pg + 1) pg in
         Some (MakeReadWriteWrapper faultaddr (PAGE_SIZE e) pg)
       else
         '(is_zero_page, zbv) <-
            ResetAndReturnBit e (zeroPagesBV pg) faultaddr ;;
         let pg := set_zeroPagesBV zbv pg in
         is_shared_page <- GetSharingBit e pg faultaddr ;;
         pg <-
           (if is_zero_page then
              Some (set_zeroPageCount (zeroPageCount pg - 1)
                      (set_allProcPrivatePageCount
                         (allProcPrivatePageCount pg + 1) pg))
            else if is_shared_page then
              pg <- UnsetSharingBit e faultaddr pg ;;
              sh_cnt <- CountSharingProcs e pg faultaddr ;;
              if sh_cnt =? 1 then
                Some (set_allProcPrivatePageCount
                        (allProcPrivatePageCount pg + 2)
                        (set_sharedPageCount (sharedPageCount pg - 1) pg))
              else if sh_cnt =? 0 then Some pg
              else if sh_cnt <=? aliveProcs pg then
                Some (set_allProcPrivatePageCount
                        (allProcPrivatePageCount pg + 1) pg)
              else None
            else Some pg) ;;
         if is_zero_page then
           let '(p, pg) :=
             SH_MMAP faultaddr (PAGE_SIZE e) true true None pg in
           if p =? MAP_FAILED then None
           else memset p 0 (PAGE_SIZE e) pg
         else if is_shared_page then
           let '(p, pg) := SH_MMAP 0 (PAGE_SIZE e) true false None pg in
           if p =? MAP_FAILED then None
           else
             pg <- memcpy p faultaddr (PAGE_SIZE e) pg ;;
             Some (mremap p (PAGE_SIZE e) faultaddr pg)
         else Some pg) ;;
    let st := set_pages pg st in
    if mergeMetric e =? THRESHOLD then MergeByTHRESHOLD st else Some st
  else None.

(** A one-byte write by the application.  A write to a mapped read-only
    page raises the protection fault; after the handler returns the
    instruction is reissued, and has a result only if the page is now
    writable. *)
Definition app_store (a v : Z) (st : State) : option State :=
  match vm (pages st) a with
  | Some m =>
      if writable m then
        pg <- store (pages st) a v ;;
        Some (set_pages pg st)
      else
        st <- SigSegvHandler a true st ;;
        pg <- store (pages st) a v ;;
        Some (set_pages pg st)
  | None => None
  end.

(** [memcpy] into application memory: the destination may fault. *)
Fixpoint app_memcpy_loop (dst src : Z) (n : nat) (st : State)
  : option State :=
  match n with
  | O => Some st
  | S n' =>
      x <- load (pages st) src ;;
      st <- app_store dst x st ;;
      app_memcpy_loop (dst + 1) (src + 1) n' st
  end.

Definition app_memcpy (dst src n : Z) (st : State) : option State :=
  app_memcpy_loop dst src (Z.to_nat n) st.

(** ** Public interface *)

(** [ShmMallocWrapper]; 0 is the null pointer.  With
    [COLLECT_MALLOC_STAT] defined the mapping is requested read-only, the
    [THRESHOLD] case of the [switch] is compiled out and the shared
    counters are left to the fault handler. *)
Definition ShmMallocWrapper (sz : Z) (st : State) : option (Z * State) :=
  if negb (CheckMPIInitialized st) then Some (0, st)
  else if isMPIFinalized st then Some (0, st)
  else if IsCloseToMmapLimit 0 then Some (0, st)
  else
    let P := PAGE_SIZE (env st) in
    let len := u64 (u64 (sz + P - 1) / P * P) in
    st <- (if mergeMetric (env st) =? ALLOC_FREQUENCY
           then MergeByALLOC_FREQUENCY st else Some st) ;;
    let '(ptr, pg) := SH_MMAP 0 len false false None (pages st) in
    let st := set_pages pg st in
    if ptr =? MAP_FAILED then Some (0, st)
    else
      st <- AspaceAvlInsertWrapper ptr len st ;;
      Some (ptr, st).

Definition ShmGetSizeWrapper (ptr : Z) (st : State) : Z :=
  if negb (CheckMPIInitialized st) then 0
  else AspaceAvlSearchWrapper ptr st.

(** One round of the per-page loop of [ShmFreeWrapper] when merging is
    enabled; the loop carries [last_page_shared]. *)
Definition ShmFreeWrapper_body (e : Env) (ptr i : Z) (s : bool * Pages)
  : option (bool * Pages) :=
  let '(last_page_shared, pg) := s in
  let p := u64 (ptr + i) in
  '(is_initialized_page, bv) <-
     ResetAndReturnBit e (initializedPagesBV pg) p ;;
  let pg := set_initializedPagesBV bv pg in
  if is_initialized_page then
    '(is_zero_page, zbv) <- ResetAndReturnBit e (zeroPagesBV pg) p ;;
    let pg := set_zeroPagesBV zbv pg in
    is_shared_page <- GetSharingBit e pg p ;;
    let pg :=
      set_baseCaseTotalPageCount (baseCaseTotalPageCount pg - 1) pg in
    let pg := if last_page_shared && negb is_shared_page
              then set_mmapCount (mmapCount pg - 1) pg else pg in
    if is_zero_page then
      Some (false,
            set_mmapCount (mmapCount pg - 1)
              (set_zeroPageCount (zeroPageCount pg - 1) pg))
    else if is_shared_page then
      sh_cnt <- CountSharingProcs e pg p ;;
      let pg :=
        if sh_cnt =? 1 then
          set_allProcPrivatePageCount (allProcPrivatePageCount pg - 1) pg
        else if sh_cnt =? 2 then
          set_allProcPrivatePageCount (allProcPrivatePageCount pg + 1)
            (set_sharedPageCount (sharedPageCount pg - 1) pg)
        else pg in
      pg <- UnsetSharingBit e p pg ;;
      Some (true, pg)
    else
      Some (false,
            set_allProcPrivatePageCount (allProcPrivatePageCount pg - 1) pg)
  else
    if last_page_shared
    then Some (false, set_mmapCount (mmapCount pg - 1) pg)
    else Some (last_page_shared, pg).

(** The round of the loop taken when merging is disabled. *)
Definition ShmFreeWrapper_body_disabled (e : Env) (ptr i : Z) (pg : Pages)
  : option Pages :=
  let p := u64 (ptr + i) in
  '(was_initialized, bv) <-
     ResetAndReturnBit e (initializedPagesBV pg) p ;;
  let pg := set_initializedPagesBV bv pg in
  if was_initialized then
    Some (set_allProcPrivatePageCount (allProcPrivatePageCount pg - 1)
            (set_baseCaseTotalPageCount (baseCaseTotalPageCount pg - 1) pg))
  else Some pg.

(** [ShmFreeWrapper]. *)
Definition ShmFreeWrapper (ptr : Z) (st : State) : option (Z * State) :=
  if negb (CheckMPIInitialized st) then Some (-1, st)
  else
    '(len, st) <- AspaceAvlRemoveWrapper ptr st ;;
    if len <=? 0 then Some (-1, st)
    else
      let e := env st in
      let pg := SH_UNMAP ptr len (pages st) in
      pg <-
        (if negb (mergeMetric e =? MERGE_DISABLED) then
           '(_, pg) <- for_each (ShmFreeWrapper_body e ptr)
                         (offsets len (PAGE_SIZE e)) (false, pg) ;;
           Some pg
         else
           for_each (ShmFreeWrapper_body_disabled e ptr)
             (offsets len (PAGE_SIZE e)) pg) ;;
      Some (1, set_pages pg st).

(** [ShmReallocWrapper].  [ptmalloc_ret] is what the small-object
    allocator answers if [ptmalloc(size)] is called.  The copy length is
    held in an [int32_t] and converted back to [size_t] by [memcpy]. *)
Definition ShmReallocWrapper (ptmalloc_ret : Z) (ptr len : Z) (st : State)
  : option (Z * State) :=
  if negb (CheckMPIInitialized st) then Some (0, st)
  else
    let old_size := AspaceAvlSearchWrapper ptr st in
    if old_size <=? 0 then Some (0, st)
    else if old_size >=? len then Some (ptr, st)
    else
      '(new_ptr, st) <- ShmMallocWrapper len st ;;
      let new_ptr := if new_ptr =? 0 then ptmalloc_ret else new_ptr in
      if new_ptr =? 0 then Some (ptr, st)
      else
        let sz := s32 (if old_size <? len then old_size else len) in
        st <- app_memcpy new_ptr ptr (u64 sz) st ;;
        '(_, st) <- ShmFreeWrapper ptr st ;;
        Some (new_ptr, st).

(** ** Initialisation *)

(** What the host answers during [InitAddrSpace]: the content of
    [/proc/sys/vm/max_map_count] if it can be read, the two [sysconf]
    values, [atoi] of each environment variable that is set, and whether
    [shm_open] with [O_CREAT|O_EXCL] created the backing file (otherwise it
    existed and is opened, and holds [holder_bitmap]). *)
Record Host : Type := mkHost {
  max_map_count : option Z;
  sc_pagesize : Z;
  sc_nprocessors_onln : Z;
  getenv_MERGE_METRIC : option Z;
  getenv_MIN_MEM_TH : option Z;
  getenv_MALLOC_MERGE_FREQ : option Z;
  getenv_NOT_MPI_APP : option Z;
  shm_created : bool;
  holder_bitmap : Z -> Z
}.

Definition getenv_or (v : option Z) (default_val : Z) : Z :=
  match v with Some x => x | None => default_val end.

(** The choice of the width of a holder-bitmap entry in [InitAddrSpace]:
    [None] is [die]. *)
Definition InitAddrSpace_numProc (cores : Z) : option Z :=
  if cores <=? 8 then Some 8
  else if cores <=? 16 then Some 16
  else None.

(** [AllocateSharedMetadata].  The first joiner finds the file zero-filled
    by [ftruncate64] and sets the counters; a later joiner finds the holder
    bitmap as its siblings left it ([found]) and the counters as they are;
    every joiner takes [*aliveProcs - 1] as its rank. *)
Definition AllocateSharedMetadata (init_shared : bool) (found : Z -> Z)
    (st : State) : option State :=
  let e := env st in
  let pg := pages st in
  let pg := if init_shared then set_shfile (fun _ => 0) pg else pg in
  let '(zp, pg) := SH_MMAP 0 (PAGE_SIZE e) init_shared false (Some 0) pg in
  pg <- (if init_shared then
           pg <- memset zp 0 (PAGE_SIZE e) pg ;;
           Some (MakeReadOnlyWrapper zp (PAGE_SIZE e) pg)
         else Some pg) ;;
  if zp =? MAP_FAILED then None
  else
    let '(info, pg) :=
      SH_MMAP 0 (3 * 1024 * 1024) true false (Some (3 * 2 ^ 30)) pg in
    if info =? MAP_FAILED then None
    else
      let '(alive, pg) :=
        SH_MMAP 0 (PAGE_SIZE e) true false (Some (3 * 2 ^ 30 + 3 * 2 ^ 20))
          pg in
      if alive =? MAP_FAILED then None
      else
        let pg :=
          if init_shared then
            set_baseCaseTotalPageCount 0
              (set_allProcPrivatePageCount 192
                 (set_sharedPageCount 1
                    (set_aliveProcs 1
                       (set_sharingProcessesInfo (Some (fun _ => 0)) pg))))
          else
            set_aliveProcs (aliveProcs pg + 1)
              (set_sharingProcessesInfo (Some found) pg) in
        let rank := aliveProcs pg - 1 in
        let mask := u64 (s32 (Z.shiftl 1 rank)) in
        let e := mkEnv (PAGE_SIZE e) (log2PAGE_SIZE e) (sharedHeapBottom e)
                   (sharedHeapTop e) (numProc e) rank mask
                   (u64 (Z.lnot mask)) zp (mergeMetric e) (maxMmapCount e) in
        Some (set_pages pg (set_env e st)).

(** [InitAddrSpace], with [InitEnv] and [CheckEnv] inlined.  The heap
    window is the one [Init_Heap_Boundary] left in the globals. *)
Definition InitAddrSpace (h : Host) (st : State) : option State :=
  let e := env st in
  let maxMmapCount' := getenv_or (max_map_count h) (maxMmapCount e) in
  let P := sc_pagesize h in
  if negb ((P >? 0) && (P <=? 2 ^ 20)) then None
  else
    let log2P := CeilLog2 P in
    let metric := getenv_or (getenv_MERGE_METRIC h) 1 in
    let th := getenv_or (getenv_MIN_MEM_TH h) 10 in
    let freq := getenv_or (getenv_MALLOC_MERGE_FREQ h) 1000 in
    let notMPI := getenv_or (getenv_NOT_MPI_APP h) 0 in
    if negb ((metric <? NUM_METRIC) && (th >? 0) && (th <? 100000)
             && (freq >? 0))
    then None
    else
      let th := th * (1000000 / P) in
      match InitAddrSpace_numProc (sc_nprocessors_onln h) with
      | None => None
      | Some width =>
          let e := mkEnv P log2P (sharedHeapBottom e) (sharedHeapTop e)
                     width (myRank e) (currProcMask e)
                     (currProcMaskInverted e) (zeroPage e) metric
                     maxMmapCount' in
          let st :=
            mkState e (pages st) (Some (CreateAVL MyComparator))
              (isMPIInitialized st) (isMPIFinalized st) notMPI th freq
              (mallocRefCounter st) (countDownTimer st)
              (bufferOfDirtyPages st) (bufferPtr st) (heap_garbage st) in
          st <- AllocateSharedMetadata (shm_created h) (holder_bitmap h)
                  st ;;
          Some (set_pages
                  (set_zeroPagesBV (fun _ => 0)
                     (set_initializedPagesBV (fun _ => 0) (pages st))) st)
      end.

(** [Init_Heap_Boundary]: two probe mappings tell which way the kernel
    hands out addresses; the window is 3 GiB on the side that grows.  A
    refused probe fails the asserted [munmap]. *)
Definition Init_Heap_Boundary (st : State) : option State :=
  let e := env st in
  let '(ptr1, pg) := SH_MMAP 0 (PAGE_SIZE e) false false None (pages st) in
  let '(ptr2, pg) := SH_MMAP 0 (PAGE_SIZE e) false false None pg in
  if (ptr1 =? MAP_FAILED) || (ptr2 =? MAP_FAILED) then None else
  let '(bottom, top) :=
    if ptr1 >? ptr2
    then (u64 (u64 (ptr1 + PAGE_SIZE e) - 3221225472),
          u64 (ptr1 + PAGE_SIZE e))
    else (ptr1, u64 (ptr1 + 3221225472)) in
  let pg := SH_UNMAP ptr2 (PAGE_SIZE e) (SH_UNMAP ptr1 (PAGE_SIZE e) pg) in
  let e := mkEnv (PAGE_SIZE e) (log2PAGE_SIZE e) bottom top (numProc e)
             (myRank e) (currProcMask e) (currProcMaskInverted e)
             (zeroPage e) (mergeMetric e) (maxMmapCount e) in
  Some (set_pages pg (set_env e st)).

(** The first call of [MPI_Init], without the statistics file. *)
Definition MPI_Init (h : Host) (st : State) : option State :=
  st <- Init_Heap_Boundary st ;;
  st <- InitAddrSpace h st ;;
  Some (set_isMPIInitialized true st).

Definition MPI_Finalize (st : State) : State := set_isMPIFinalized true st.

(** The globals as their initialisers leave them, in a process whose
    kernel will answer [answers]; nothing the layer knows of is mapped. *)
Definition initial_globals (answers : list Z) (garbage : Z) : State :=
  mkState
    (mkEnv 4096 12 140735340871680 140737488355327 0 (-1) 1 (u64 (-1)) 0
       THRESHOLD 65536)
    (mkPages 0 0 (fun _ => 0) (fun _ => 0) None 0 0 0 0 (fun _ => None)
       (fun _ => 0) (fun _ => 0) answers)
    None false false 0 10000 MALLOC_REF_FREQ 0 100 (fun _ => 0) 0 garbage.

(** ** Predicates used in the statements *)

(** No stored height is negative; with this, [Balance] never follows a
    null child. *)
Fixpoint heights_nonneg (t : AVLTreeNode) : Prop :=
  match t with
  | NULL => True
  | Node _ _ h l r _ => 0 <= h /\ heights_nonneg l /\ heights_nonneg r
  end.

(** The bases of the regions lie strictly between [lo] and [hi] and
    increase from left to right. *)
Fixpoint search_tree (lo hi : Z) (t : AVLTreeNode) : Prop :=
  match t with
  | NULL => lo < hi
  | Node k _ _ l r _ => search_tree lo k l /\ search_tree k hi r
  end.

(** The same for a list of regions. *)
Fixpoint between (lo hi : Z) (rs : list (Z * Z)) : Prop :=
  match rs with
  | [] => lo < hi
  | (k, _) :: rs' => lo < k /\ between k hi rs'
  end.

(** The half-open interval of region [(base, len)] covers [addr]. *)
Definition covers (r : Z * Z) (addr : Z) : Prop :=
  fst r <= addr < fst r + snd r.

(** Two regions share no address. *)
Definition disjoint (r1 r2 : Z * Z) : Prop :=
  fst r1 + snd r1 <= fst r2 \/ fst r2 + snd r2 <= fst r1.

(** The regions are non-empty, end within the 64-bit address space, and
    are pairwise disjoint. *)
Definition regions_disjoint (rs : list (Z * Z)) : Prop :=
  (forall r, In r rs -> 0 < snd r /\ fst r + snd r < 2 ^ 64) /\
  (forall r1 r2, In r1 rs -> In r2 rs -> r1 <> r2 -> disjoint r1 r2).

(** An allocation index as the layer builds it: created with
    [MyComparator], ordered by base, bases in the lower half of the address
    space (where the signed difference of [MyComparator] is the order of
    addresses). *)
Definition allocation_index (tree : AVLTreeData) : Prop :=
  comparator tree = MyComparator /\ search_tree 0 (2 ^ 63) (root tree).

(** The key and value of a node pointer, if not null. *)
Definition region_of (np : AVLTreeNode) : option (Z * Z) :=
  match np with
  | NULL => None
  | Node k v _ _ _ _ => Some (k, v)
  end.


(** The count the threshold policy looks at. *)
Definition page_count (st : State) : Z :=
  allProcPrivatePageCount (pages st) + sharedPageCount (pages st).

(** The operations of a run of one process. *)
Inductive Op : Type :=
| OpMalloc (sz : Z)
| OpRealloc (ptmalloc_ret ptr len : Z)
| OpFree (ptr : Z)
| OpWrite (addr v : Z)
| OpFault (si_addr : Z) (writefault : bool)
| OpMergeByTHRESHOLD
| OpMergeByALLOC_FREQUENCY
| OpMergeByBUFFERED.

Definition step (op : Op) (st : State) : option State :=
  match op with
  | OpMalloc sz => option_map snd (ShmMallocWrapper sz st)
  | OpRealloc pt ptr len => option_map snd (ShmReallocWrapper pt ptr len st)
  | OpFree ptr => option_map snd (ShmFreeWrapper ptr st)
  | OpWrite a v => app_store a v st
  | OpFault a w => SigSegvHandler a w st
  | OpMergeByTHRESHOLD => MergeByTHRESHOLD st
  | OpMergeByALLOC_FREQUENCY => MergeByALLOC_FREQUENCY st
  | OpMergeByBUFFERED => MergeByBUFFERED st
  end.

Fixpoint run (ops : list Op) (st : State) : option State :=
  match ops with
  | [] => Some st
  | op :: ops' => st' <- step op st ;; run ops' st'
  end.

(** ** Example states *)

Definition the {A : Type} (default : A) (o : option A) : A :=
  match o with Some a => a | None => default end.

Definition is_some {A : Type} (o : option A) : bool :=
  match o with Some _ => true | None => false end.

(** A host with eight cores and 4 KiB pages, threshold policy, whose
    process creates the backing file. *)
Definition example_host : Host :=
  mkHost None 4096 8 (Some 2) None None None true (fun _ => 0).

(** The addresses the kernel hands out in the examples: the two probes,
    the zero page, the holder bitmap, the counters page, then the regions
    of the application. *)
Definition example_boot_answers : list Z :=
  [140737353940992; 140737353936896; 140737353940992; 140737350795264;
   140737350791168].

Definition example_base : Z := 140737350782976.

(** After [MPI_Init], with [more] answers left in the kernel. *)
Definition example_initialized (more : list Z) : State :=
  the (initial_globals [] 0)
      (MPI_Init example_host
         (initial_globals (example_boot_answers ++ more) 0)).

(** After [alloc(8192)] at [example_base]. *)
Definition example_allocated (more : list Z) : State :=
  the (initial_globals [] 0)
      (option_map snd
         (ShmMallocWrapper 8192 (example_initialized (example_base :: more)))).

(** After the application has then written a zero byte to each of the two
    pages: both are initialised, private, and still all zero. *)
Definition example_written (more : list Z) : State :=
  the (initial_globals [] 0)
      (run [OpWrite example_base 0; OpWrite (example_base + 4096) 0]
         (example_allocated more)).

(** The written state with the threshold at 100 pages and the countdown
    about to expire; the kernel grants the scratch window and both
    mappings of the zero frame. *)
Definition example_threshold_reached : State :=
  set_countDownTimer 1
    (set_mergeMinMemTh 100 (example_written [140737346588672; 1; 1])).



(** The two written pages are merged while the kernel grants the scratch
    window and the first mapping of the zero frame, and refuses the
    second. *)
Definition example_refused : State :=
  example_written [140737346588672; 1; MAP_FAILED].


(** * Properties *)

(** ** Machine integers *)

Lemma u64_small (x : Z) : 0 <= x < 2 ^ 64 -> u64 x = x.
Proof. intros H. unfold u64. apply Z.mod_small. exact H. Qed.

Lemma s64_u64 (x : Z) : - 2 ^ 63 <= x < 2 ^ 63 -> s64 (u64 x) = x.
Proof.
  intros H. unfold s64, u64. rewrite Z.mod_mod by lia.
  change (2 ^ 63) with 9223372036854775808 in *.
  change (2 ^ 64) with 18446744073709551616 in *.
  destruct (Z_lt_le_dec x 0) as [Hneg | Hpos].
  - replace (x mod 18446744073709551616) with (x + 18446744073709551616).
    + destruct (Z.ltb_spec (x + 18446744073709551616) 9223372036854775808); lia.
    + apply Z.mod_unique with (q := -1); lia.
  - rewrite Z.mod_small by lia.
    destruct (Z.ltb_spec x 9223372036854775808); lia.
Qed.

(** On addresses of the lower half, [MyComparator] is the order of [Z]. *)
Lemma MyComparator_spec (a b : Z) :
  0 <= a < 2 ^ 63 -> 0 <= b < 2 ^ 63 ->
  (MyComparator a b <? 0) = (a <? b) /\ (MyComparator a b >? 0) = (b <? a).
Proof.
  intros Ha Hb. unfold MyComparator.
  rewrite s64_u64 by lia.
  destruct (Z.eqb_spec (a - b) 0) as [E | E];
    [ | destruct (Z.gtb_spec (a - b) 0) as [G | G] ];
    destruct (Z.ltb_spec a b); destruct (Z.ltb_spec b a);
    simpl; split; try reflexivity; lia.
Qed.

(** ** The allocation index *)

Lemma between_app (rs1 rs2 : list (Z * Z)) (k v lo hi : Z) :
  between lo hi (rs1 ++ (k, v) :: rs2) <->
  between lo k rs1 /\ between k hi rs2.
Proof.
  revert lo. induction rs1 as [| [k1 v1] rs1 IH]; intros lo; simpl.
  - tauto.
  - rewrite IH. tauto.
Qed.

Lemma search_tree_between (t : AVLTreeNode) (lo hi : Z) :
  search_tree lo hi t <-> between lo hi (regions t).
Proof.
  revert lo hi. induction t as [| k v h l IHl r IHr d]; intros lo hi; simpl.
  - tauto.
  - rewrite between_app, IHl, IHr. tauto.
Qed.

Lemma between_bounds (rs : list (Z * Z)) (lo hi : Z) :
  between lo hi rs -> lo < hi.
Proof.
  revert lo. induction rs as [| [k v] rs IH]; intros lo; simpl.
  - trivial.
  - intros [H1 H2]. apply IH in H2. lia.
Qed.

Lemma between_In (rs : list (Z * Z)) (lo hi : Z) (r : Z * Z) :
  between lo hi rs -> In r rs -> lo < fst r < hi.
Proof.
  revert lo. induction rs as [| [k v] rs IH]; intros lo; simpl.
  - tauto.
  - intros [H1 H2] [E | HIn].
    + subst r. simpl. apply between_bounds in H2. lia.
    + specialize (IH _ H2 HIn). lia.
Qed.

Lemma between_weaken (rs : list (Z * Z)) (lo lo' hi hi' : Z) :
  between lo hi rs -> lo' <= lo -> hi <= hi' -> between lo' hi' rs.
Proof.
  revert lo lo'. induction rs as [| [k v] rs IH]; intros lo lo'; simpl.
  - lia.
  - intros [H1 H2] Hlo Hhi. split; [ lia | ].
    apply IH with (lo := k); auto; lia.
Qed.

Lemma search_tree_In (t : AVLTreeNode) (lo hi : Z) (r : Z * Z) :
  search_tree lo hi t -> In r (regions t) -> lo < fst r < hi.
Proof. rewrite search_tree_between. apply between_In. Qed.

Lemma regions_disjoint_incl (rs rs' : list (Z * Z)) :
  (forall x, In x rs' -> In x rs) ->
  regions_disjoint rs -> regions_disjoint rs'.
Proof.
  intros Hsub [Hpos Hdis]. split.
  - intros r Hr. apply Hpos. apply Hsub. exact Hr.
  - intros r1 r2 H1 H2 Hne. apply Hdis; auto.
Qed.

(** Two disjoint non-empty regions cannot cover the same address. *)
Lemma covers_unique (rs : list (Z * Z)) (r1 r2 : Z * Z) (addr : Z) :
  regions_disjoint rs -> In r1 rs -> In r2 rs ->
  covers r1 addr -> covers r2 addr -> r1 = r2.
Proof.
  intros [Hpos Hdis] H1 H2 C1 C2.
  destruct r1 as [b1 s1], r2 as [b2 s2].
  destruct (Z.eq_dec b1 b2) as [Eb | Nb];
    [ destruct (Z.eq_dec s1 s2) as [Es | Ns] | ].
  - subst. reflexivity.
  - assert (Hne : (b1, s1) <> (b2, s2)) by congruence.
    specialize (Hdis _ _ H1 H2 Hne). unfold disjoint, covers in *.
    simpl in *. lia.
  - assert (Hne : (b1, s1) <> (b2, s2)) by congruence.
    specialize (Hdis _ _ H1 H2 Hne). unfold disjoint, covers in *.
    simpl in *. lia.
Qed.

(** The descent of [FindRangeAVL] at one node, on addresses of the lower
    half. *)
Lemma FindRangeAVL_loop_step (k v h : Z) (l r : AVLTreeNode) (d addr : Z) :
  0 <= k < 2 ^ 63 -> 0 <= addr < 2 ^ 63 ->
  FindRangeAVL_loop MyComparator (Node k v h l r d) addr =
  if addr <? k then FindRangeAVL_loop MyComparator l addr
  else if k <? addr then
    if u64 (k + v) >? addr then Node k v h l r d
    else FindRangeAVL_loop MyComparator r addr
  else Node k v h l r d.
Proof.
  intros Hk Ha. simpl.
  destruct (MyComparator_spec addr k Ha Hk) as [E1 E2].
  rewrite E1, E2. reflexivity.
Qed.

Lemma FindRangeAVL_loop_correct (t : AVLTreeNode) :
  forall lo hi addr,
    0 <= lo -> hi <= 2 ^ 63 -> search_tree lo hi t ->
    regions_disjoint (regions t) -> 0 <= addr < 2 ^ 63 ->
    (forall r, In r (regions t) -> covers r addr ->
       region_of (FindRangeAVL_loop MyComparator t addr) = Some r) /\
    ((forall r, In r (regions t) -> ~ covers r addr) ->
       FindRangeAVL_loop MyComparator t addr = NULL).
Proof.
  induction t as [| k v h l IHl r IHr d];
    intros lo hi addr Hlo Hhi Hst Hdis Haddr.
  - simpl. split; [ intros r [] | reflexivity ].
  - simpl in Hst. destruct Hst as [Hl Hr].
    assert (Bl := Hl). rewrite search_tree_between in Bl.
    assert (Br := Hr). rewrite search_tree_between in Br.
    assert (Hlk : lo < k) by (eapply between_bounds; eauto).
    assert (Hkh : k < hi) by (eapply between_bounds; eauto).
    assert (Hin : In (k, v) (regions (Node k v h l r d)))
      by (simpl; apply in_or_app; right; left; reflexivity).
    assert (Hkv : 0 < v /\ k + v < 2 ^ 64)
      by (destruct Hdis as [Hpos _]; apply (Hpos (k, v) Hin)).
    assert (Hdl : regions_disjoint (regions l)).
    { eapply regions_disjoint_incl; [ | exact Hdis ].
      intros x Hx. simpl. apply in_or_app. left. exact Hx. }
    assert (Hdr : regions_disjoint (regions r)).
    { eapply regions_disjoint_incl; [ | exact Hdis ].
      intros x Hx. simpl. apply in_or_app. right. right. exact Hx. }
    assert (Hleft : forall x, In x (regions l) ->
                      fst x < k /\ fst x + snd x <= k).
    { intros x Hx. assert (B := between_In _ _ _ _ Bl Hx).
      split; [ lia | ].
      assert (Hxin : In x (regions (Node k v h l r d)))
        by (simpl; apply in_or_app; left; exact Hx).
      assert (Hne : x <> (k, v)) by (intros ->; simpl in B; lia).
      destruct Hdis as [Hpos Hd].
      specialize (Hd _ _ Hxin Hin Hne). unfold disjoint in Hd. simpl in Hd.
      lia. }
    assert (Hright : forall x, In x (regions r) -> k < fst x).
    { intros x Hx. assert (B := between_In _ _ _ _ Br Hx). lia. }
    rewrite FindRangeAVL_loop_step by lia.
    rewrite (u64_small (k + v)) by lia.
    specialize (IHl lo k addr Hlo ltac:(lia) Hl Hdl Haddr).
    specialize (IHr k hi addr ltac:(lia) Hhi Hr Hdr Haddr).
    destruct IHl as [IHl1 IHl2]. destruct IHr as [IHr1 IHr2].
    destruct (Z.ltb_spec addr k) as [Lt | Ge].
    + split.
      * intros x Hx Hc. simpl in Hx. apply in_app_or in Hx.
        destruct Hx as [Hx | [Hx | Hx]].
        -- apply IHl1; assumption.
        -- subst x. unfold covers in Hc. simpl in Hc. lia.
        -- apply Hright in Hx. unfold covers in Hc. lia.
      * intros Hnone. apply IHl2. intros x Hx. apply Hnone.
        simpl. apply in_or_app. left. exact Hx.
    + destruct (Z.ltb_spec k addr) as [Gt | Le].
      * destruct (Z.gtb_spec (k + v) addr) as [Cov | NCov].
        -- assert (Hc0 : covers (k, v) addr) by (unfold covers; simpl; lia).
           split.
           ++ intros x Hx Hc. simpl. f_equal.
              exact (covers_unique _ _ _ _ Hdis Hin Hx Hc0 Hc).
           ++ intros Hnone. exfalso. exact (Hnone _ Hin Hc0).
        -- split.
           ++ intros x Hx Hc. simpl in Hx. apply in_app_or in Hx.
              destruct Hx as [Hx | [Hx | Hx]].
              ** apply Hleft in Hx. unfold covers in Hc. lia.
              ** subst x. unfold covers in Hc. simpl in Hc. lia.
              ** apply IHr1; assumption.
           ++ intros Hnone. apply IHr2. intros x Hx. apply Hnone.
              simpl. apply in_or_app. right. right. exact Hx.
      * assert (Hc0 : covers (k, v) addr) by (unfold covers; simpl; lia).
        split.
        -- intros x Hx Hc. simpl. f_equal.
           exact (covers_unique _ _ _ _ Hdis Hin Hx Hc0 Hc).
        -- intros Hnone. exfalso. exact (Hnone _ Hin Hc0).
Qed.

(** C5.  On an allocation index whose regions are pairwise disjoint,
    [FindRangeAVL] returns the node of the region whose half-open interval
    [base, base+size) covers the address, and null when no region covers
    it; at each node the search goes left when the address is below the
    base, returns the node when it is above the base and base + size is
    above the address, goes right when it is above both, and returns the
    node when it equals the base. *)
Theorem FindRangeAVL_finds_covering_region (tree : AVLTreeData) (addr : Z) :
  allocation_index tree ->
  regions_disjoint (regions (root tree)) ->
  0 <= addr < 2 ^ 63 ->
  (forall r, In r (regions (root tree)) -> covers r addr ->
     region_of (FindRangeAVL tree addr) = Some r) /\
  ((forall r, In r (regions (root tree)) -> ~ covers r addr) ->
     FindRangeAVL tree addr = NULL) /\
  (forall k v h l r d, 0 <= k < 2 ^ 63 ->
     FindRangeAVL_loop (comparator tree) (Node k v h l r d) addr =
     if addr <? k then FindRangeAVL_loop (comparator tree) l addr
     else if k <? addr then
       if u64 (k + v) >? addr then Node k v h l r d
       else FindRangeAVL_loop (comparator tree) r addr
     else Node k v h l r d).
Proof.
  intros [Hcmp Hst] Hdis Haddr. unfold FindRangeAVL. rewrite Hcmp.
  destruct (FindRangeAVL_loop_correct (root tree) 0 (2 ^ 63) addr
              ltac:(lia) ltac:(lia) Hst Hdis Haddr) as [H1 H2].
  split; [ exact H1 | split; [ exact H2 | ] ].
  intros k v h l r d Hk. apply FindRangeAVL_loop_step; assumption.
Qed.

(** *** Rotations and [Balance] *)

Ltac same_regions :=
  simpl; repeat rewrite <- app_assoc; simpl; reflexivity.

Lemma GetHeight_nonneg (t : AVLTreeNode) :
  heights_nonneg t -> 0 <= GetHeight t.
Proof. destruct t; simpl; [ lia | tauto ]. Qed.

Lemma max_plus_one_nonneg (a b : Z) :
  0 <= a -> 0 <= b -> 0 <= (if a >? b then a else b) + 1.
Proof. intros. destruct (a >? b); lia. Qed.

Lemma RotateSingleRight_total (ek ev eh dk dv dh : Z) (a b : AVLTreeNode)
    (dd : Z) (c : AVLTreeNode) (ed : Z) :
  heights_nonneg a -> heights_nonneg b -> heights_nonneg c ->
  exists k v h l r d,
    RotateSingleRight (Node ek ev eh (Node dk dv dh a b dd) c ed)
    = Some (Node k v h l r d) /\
    heights_nonneg l /\ heights_nonneg r /\
    regions (Node k v h l r d)
    = regions (Node ek ev eh (Node dk dv dh a b dd) c ed).
Proof.
  intros Ha Hb Hc. simpl. do 6 eexists. split; [ reflexivity | ].
  assert (Hgb := GetHeight_nonneg b Hb).
  split; [ exact Ha | split ].
  - simpl. split; [ apply max_plus_one_nonneg; assumption | tauto ].
  - same_regions.
Qed.

Lemma RotateSingleLeft_total (dk dv dh : Z) (a : AVLTreeNode)
    (ek ev eh : Z) (b c : AVLTreeNode) (ed dd : Z) :
  heights_nonneg a -> heights_nonneg b -> heights_nonneg c ->
  exists k v h l r d,
    RotateSingleLeft (Node dk dv dh a (Node ek ev eh b c ed) dd)
    = Some (Node k v h l r d) /\
    heights_nonneg l /\ heights_nonneg r /\
    regions (Node k v h l r d)
    = regions (Node dk dv dh a (Node ek ev eh b c ed) dd).
Proof.
  intros Ha Hb Hc. simpl. do 6 eexists. split; [ reflexivity | ].
  assert (Hga := GetHeight_nonneg a Ha).
  assert (Hgb := GetHeight_nonneg b Hb).
  split; [ | split; [ exact Hc | ] ].
  - simpl. split; [ apply max_plus_one_nonneg; assumption | tauto ].
  - same_regions.
Qed.

(** With no negative stored height below it, [Balance] has a result; the
    result is a node, has no negative stored height, and holds the same
    regions in the same order. *)
Lemma Balance_total (k v h : Z) (l r : AVLTreeNode) (d : Z) :
  heights_nonneg l -> heights_nonneg r ->
  exists k' v' h' l' r' d',
    Balance (Node k v h l r d) = Some (Node k' v' h' l' r' d') /\
    heights_nonneg (Node k' v' h' l' r' d') /\
    regions (Node k' v' h' l' r' d') = regions (Node k v h l r d).
Proof.
  intros Hl Hr. unfold Balance.
  assert (Hgl := GetHeight_nonneg l Hl).
  assert (Hgr := GetHeight_nonneg r Hr).
  assert (Hb : GetBalance (Node k v h l r d) = GetHeight r - GetHeight l).
  { destruct l, r; simpl; lia. }
  rewrite Hb.
  assert (Hfin : forall k2 v2 h2 l2 r2 d2 rot,
            rot = Some (Node k2 v2 h2 l2 r2 d2) ->
            heights_nonneg l2 -> heights_nonneg r2 ->
            regions (Node k2 v2 h2 l2 r2 d2) = regions (Node k v h l r d) ->
            exists k' v' h' l' r' d',
              (rotated <- rot ;;
               match rotated with
               | Node k0 v0 _ l0 r0 d0 =>
                   let left := GetHeight l0 in
                   let right := GetHeight r0 in
                   Some (Node k0 v0
                           ((if left >? right then left else right) + 1)
                           l0 r0 d0)
               | NULL => None
               end) = Some (Node k' v' h' l' r' d') /\
              heights_nonneg (Node k' v' h' l' r' d') /\
              regions (Node k' v' h' l' r' d') = regions (Node k v h l r d)).
  { intros k2 v2 h2 l2 r2 d2 rot -> Hl2 Hr2 R2. cbn [obind].
    do 6 eexists. split; [ reflexivity | ]. split.
    - simpl. split; [ | tauto ].
      apply max_plus_one_nonneg; apply GetHeight_nonneg; assumption.
    - rewrite <- R2. reflexivity. }
  destruct (Z.ltb_spec (GetHeight r - GetHeight l) (-1)) as [Lt | Ge].
  - (* the left subtree is the taller one: it is a node *)
    destruct l as [| lk lv lh ll lr ld]; [ simpl in *; lia | ].
    simpl in Hl. destruct Hl as [Hlh [Hll Hlr]].
    assert (Hgll := GetHeight_nonneg ll Hll).
    assert (Hglr := GetHeight_nonneg lr Hlr).
    assert (Hbl : GetBalance (Node lk lv lh ll lr ld)
                  = GetHeight lr - GetHeight ll).
    { destruct ll, lr; simpl; lia. }
    rewrite Hbl.
    destruct (Z.gtb_spec (GetHeight lr - GetHeight ll) 0) as [Gt | Le].
    + destruct lr as [| bk bv bh b1 b2 bd]; [ simpl in *; lia | ].
      simpl in Hlr. destruct Hlr as [_ [Hb1 Hb2]].
      unfold RotateDoubleRight.
      destruct (RotateSingleLeft_total lk lv lh ll bk bv bh b1 b2 bd ld
                  Hll Hb1 Hb2)
        as (k1 & v1 & h1 & l1 & r1 & d1 & E1 & Hl1 & Hr1 & R1).
      rewrite E1. cbn [obind].
      destruct (RotateSingleRight_total k v h k1 v1 h1 l1 r1 d1 r d
                  Hl1 Hr1 Hr)
        as (k2 & v2 & h2 & l2 & r2 & d2 & E2 & Hl2 & Hr2 & R2).
      apply (Hfin k2 v2 h2 l2 r2 d2); auto.
      rewrite R2. simpl. simpl in R1. rewrite R1. reflexivity.
    + destruct (RotateSingleRight_total k v h lk lv lh ll lr ld r d
                  Hll Hlr Hr)
        as (k2 & v2 & h2 & l2 & r2 & d2 & E2 & Hl2 & Hr2 & R2).
      apply (Hfin k2 v2 h2 l2 r2 d2); auto.
  - destruct (Z.gtb_spec (GetHeight r - GetHeight l) 1) as [Gt | Le].
    + destruct r as [| rk rv rh rl rr rd]; [ simpl in *; lia | ].
      simpl in Hr. destruct Hr as [Hrh [Hrl Hrr]].
      assert (Hgrl := GetHeight_nonneg rl Hrl).
      assert (Hgrr := GetHeight_nonneg rr Hrr).
      assert (Hbr : GetBalance (Node rk rv rh rl rr rd)
                    = GetHeight rr - GetHeight rl).
      { destruct rl, rr; simpl; lia. }
      rewrite Hbr.
      destruct (Z.ltb_spec (GetHeight rr - GetHeight rl) 0) as [Lt | Ge'].
      * destruct rl as [| bk bv bh b1 b2 bd]; [ simpl in *; lia | ].
        simpl in Hrl. destruct Hrl as [_ [Hb1 Hb2]].
        unfold RotateDoubleLeft.
        destruct (RotateSingleRight_total rk rv rh bk bv bh b1 b2 bd rr rd
                    Hb1 Hb2 Hrr)
          as (k1 & v1 & h1 & l1 & r1 & d1 & E1 & Hl1 & Hr1 & R1).
        rewrite E1. cbn [obind].
        destruct (RotateSingleLeft_total k v h l k1 v1 h1 l1 r1 d1 d
                    Hl Hl1 Hr1)
          as (k2 & v2 & h2 & l2 & r2 & d2 & E2 & Hl2 & Hr2 & R2).
        apply (Hfin k2 v2 h2 l2 r2 d2); auto.
        rewrite R2. simpl. simpl in R1. rewrite R1. reflexivity.
      * destruct (RotateSingleLeft_total k v h l rk rv rh rl rr rd d
                    Hl Hrl Hrr)
          as (k2 & v2 & h2 & l2 & r2 & d2 & E2 & Hl2 & Hr2 & R2).
        apply (Hfin k2 v2 h2 l2 r2 d2); auto.
    + apply (Hfin k v h l r d); auto.
Qed.

(** *** Exact lookup *)

Lemma FindAVL_loop_In (t : AVLTreeNode) :
  forall lo hi k v,
    0 <= lo -> hi <= 2 ^ 63 -> search_tree lo hi t ->
    In (k, v) (regions t) -> FindAVL_loop MyComparator t k = v.
Proof.
  induction t as [| k0 v0 h l IHl r IHr d]; intros lo hi k v Hlo Hhi Hst HIn.
  - destruct HIn.
  - simpl in Hst. destruct Hst as [Hl Hr].
    assert (Bl := Hl). rewrite search_tree_between in Bl.
    assert (Br := Hr). rewrite search_tree_between in Br.
    assert (Hlk : lo < k0) by (eapply between_bounds; eauto).
    assert (Hkh : k0 < hi) by (eapply between_bounds; eauto).
    simpl in HIn. apply in_app_or in HIn. simpl.
    destruct HIn as [HIn | [E | HIn]].
    + assert (B := between_In _ _ _ _ Bl HIn). simpl in B.
      destruct (MyComparator_spec k k0 ltac:(lia) ltac:(lia)) as [E1 E2].
      rewrite E1. destruct (Z.ltb_spec k k0); [ | lia ].
      apply (IHl lo k0 k v); auto; lia.
    + inversion E; subst.
      destruct (MyComparator_spec k k ltac:(lia) ltac:(lia)) as [E1 E2].
      rewrite E1, E2. rewrite Z.ltb_irrefl. reflexivity.
    + assert (B := between_In _ _ _ _ Br HIn). simpl in B.
      destruct (MyComparator_spec k k0 ltac:(lia) ltac:(lia)) as [E1 E2].
      rewrite E1, E2. destruct (Z.ltb_spec k k0); [ lia | ].
      destruct (Z.ltb_spec k0 k); [ | lia ].
      apply (IHr k0 hi k v); auto; lia.
Qed.


(** *** [Insert] *)

Lemma between_keys_gt (rs : list (Z * Z)) (lo hi k : Z) :
  between lo hi rs -> k <= lo -> ~ In k (map fst rs).
Proof.
  intros B Hk HIn. apply in_map_iff in HIn. destruct HIn as [x [E HIn]].
  assert (H := between_In _ _ _ _ B HIn). lia.
Qed.

Lemma between_keys_lt (rs : list (Z * Z)) (lo hi k : Z) :
  between lo hi rs -> hi <= k -> ~ In k (map fst rs).
Proof.
  intros B Hk HIn. apply in_map_iff in HIn. destruct HIn as [x [E HIn]].
  assert (H := between_In _ _ _ _ B HIn). lia.
Qed.

(** [Insert] into a search tree with no negative stored height has a
    result, which is again such a tree; either the key was a recorded base
    and nothing changed, or the region was added at its place. *)
Lemma Insert_spec (garbage key value : Z) (t : AVLTreeNode) :
  forall sz lo hi,
    heights_nonneg t -> search_tree lo hi t ->
    0 <= lo -> hi <= 2 ^ 63 -> lo < key < hi ->
    exists res sz' t',
      Insert MyComparator garbage sz t key value = Some (res, sz', t') /\
      heights_nonneg t' /\ is_null t' = false /\ search_tree lo hi t' /\
      ((In (key, res) (regions t) /\ regions t' = regions t /\ sz' = sz) \/
       (~ In key (map fst (regions t)) /\ res = 0 /\ sz' = sz + 1 /\
        exists rs1 rs2, regions t = rs1 ++ rs2 /\
                        regions t' = rs1 ++ (key, value) :: rs2)).
Proof.
  induction t as [| k0 v0 h l IHl r IHr d];
    intros sz lo hi Hh Hst Hlo Hhi Hkey.
  - simpl. do 3 eexists. split; [ reflexivity | ].
    simpl. repeat split; try lia.
    right. repeat split; auto. exists [], []. split; reflexivity.
  - simpl in Hh. destruct Hh as [Hh0 [Hhl Hhr]].
    simpl in Hst. destruct Hst as [Hl Hr].
    assert (Bl := Hl). rewrite search_tree_between in Bl.
    assert (Br := Hr). rewrite search_tree_between in Br.
    assert (Hlk : lo < k0) by (eapply between_bounds; eauto).
    assert (Hkh : k0 < hi) by (eapply between_bounds; eauto).
    cbn [Insert].
    destruct (MyComparator_spec key k0 ltac:(lia) ltac:(lia)) as [E1 E2].
    rewrite E1, E2.
    destruct (Z.ltb_spec key k0) as [Lt | Ge].
    + (* left *)
      assert (Hnr : ~ In key (map fst (regions r)))
        by (eapply between_keys_gt; eauto; lia).
      destruct l as [| lk lv lh ll lr ld].
      * destruct (Balance_total k0 v0
                    (if negb (is_null r)
                        && is_null (Node key value 1 NULL NULL garbage)
                        || negb (is_null (Node key value 1 NULL NULL garbage))
                           && is_null r
                     then h + 1 else h)
                    (Node key value 1 NULL NULL garbage) r d)
          as (k' & v' & h' & l' & r' & d' & EB & HB & RB).
        { simpl. repeat split; lia. }
        { exact Hhr. }
        rewrite EB. cbn [obind].
        do 3 eexists. split; [ reflexivity | ].
        split; [ exact HB | split; [ reflexivity | split ] ].
        -- rewrite search_tree_between, RB. simpl. repeat split; try lia.
           exact Br.
        -- right. split.
           ++ simpl. intros [E | HIn]; [ lia | contradiction ].
           ++ repeat split; auto.
              exists [], ((k0, v0) :: regions r). rewrite RB.
              split; reflexivity.
      * cbv iota. remember (Node lk lv lh ll lr ld) as L eqn:EL.
        destruct (IHl sz lo k0 Hhl Hl Hlo ltac:(lia) ltac:(lia))
          as (res & sz' & l' & EI & HI & NI & SI & CI).
        rewrite EI. cbn [obind].
        destruct (Balance_total k0 v0 h l' r d HI Hhr)
          as (k' & v' & h' & l2 & r2 & d2 & EB & HB & RB).
        rewrite EB. cbn [obind].
        do 3 eexists. split; [ reflexivity | ].
        split; [ exact HB | split; [ reflexivity | split ] ].
        -- rewrite search_tree_between, RB. simpl.
           rewrite between_app. split; [ | exact Br ].
           rewrite <- search_tree_between. exact SI.
        -- destruct CI as [[C1 [C2 C3]] | [C1 [C2 [C3 [rs1 [rs2 [C4 C5]]]]]]].
           ++ left. split; [ | split; [ | exact C3 ] ].
              ** simpl. apply in_or_app. left. exact C1.
              ** rewrite RB. simpl. rewrite C2. reflexivity.
           ++ right. split; [ | split; [ exact C2 | split; [ exact C3 | ] ] ].
              ** simpl. rewrite map_app. simpl. intros HIn.
                 apply in_app_or in HIn.
                 destruct HIn as [HIn | [E | HIn]];
                   [ contradiction | lia | contradiction ].
              ** exists rs1, (rs2 ++ (k0, v0) :: regions r).
                 rewrite RB. simpl. rewrite C4, C5.
                 repeat rewrite <- app_assoc. split; reflexivity.
    + destruct (Z.ltb_spec k0 key) as [Gt | Le].
      * (* right *)
        assert (Hnl : ~ In key (map fst (regions l)))
          by (eapply between_keys_lt; eauto; lia).
        destruct r as [| rk rv rh rl rr rd].
        -- destruct (Balance_total k0 v0
                      (if negb (is_null (Node key value 1 NULL NULL garbage))
                          && is_null l
                          || negb (is_null l)
                             && is_null (Node key value 1 NULL NULL garbage)
                       then h + 1 else h)
                      l (Node key value 1 NULL NULL garbage) d)
            as (k' & v' & h' & l' & r' & d' & EB & HB & RB).
          { exact Hhl. }
          { simpl. repeat split; lia. }
          rewrite EB. cbn [obind].
          do 3 eexists. split; [ reflexivity | ].
          split; [ exact HB | split; [ reflexivity | split ] ].
          ++ rewrite search_tree_between, RB. simpl.
             rewrite between_app. split; [ exact Bl | ].
             simpl. lia.
          ++ right. split.
             ** simpl. rewrite map_app. simpl. intros HIn.
                apply in_app_or in HIn.
                destruct HIn as [HIn | [E | []]]; [ contradiction | lia ].
             ** repeat split; auto.
                exists (regions l ++ [(k0, v0)]), []. rewrite RB. simpl.
                repeat rewrite <- app_assoc. simpl.
                split; reflexivity.
        -- cbv iota. remember (Node rk rv rh rl rr rd) as R eqn:ER.
          destruct (IHr sz k0 hi Hhr Hr ltac:(lia) Hhi ltac:(lia))
            as (res & sz' & r' & EI & HI & NI & SI & CI).
          rewrite EI. cbn [obind].
          destruct (Balance_total k0 v0 h l r' d Hhl HI)
            as (k' & v' & h' & l2 & r2 & d2 & EB & HB & RB).
          rewrite EB. cbn [obind].
          do 3 eexists. split; [ reflexivity | ].
          split; [ exact HB | split; [ reflexivity | split ] ].
          ++ rewrite search_tree_between, RB. simpl.
             rewrite between_app. split; [ exact Bl | ].
             rewrite <- search_tree_between. exact SI.
          ++ destruct CI as [[C1 [C2 C3]] | [C1 [C2 [C3 [rs1 [rs2 [C4 C5]]]]]]].
             ** left. split; [ | split; [ | exact C3 ] ].
                --- simpl. apply in_or_app. right. right. exact C1.
                --- rewrite RB. simpl. rewrite C2. reflexivity.
             ** right.
                split; [ | split; [ exact C2 | split; [ exact C3 | ] ] ].
                --- simpl. rewrite map_app. simpl. intros HIn.
                    apply in_app_or in HIn.
                    destruct HIn as [HIn | [E | HIn]];
                      [ contradiction | lia | contradiction ].
                --- exists (regions l ++ (k0, v0) :: rs1), rs2.
                    rewrite RB. simpl. rewrite C4, C5.
                    repeat rewrite <- app_assoc. split; reflexivity.
      * (* the key is already a base *)
        assert (key = k0) by lia. subst k0.
        do 3 eexists. split; [ reflexivity | ].
        split; [ simpl; tauto | split; [ reflexivity | split ] ].
        -- simpl. tauto.
        -- left. split; [ | split; reflexivity ].
           simpl. apply in_or_app. right. left. reflexivity.
Qed.

(** [InsertAVL] on an allocation index. *)
Lemma InsertAVL_spec (garbage key value : Z) (tree : AVLTreeData) :
  allocation_index tree -> heights_nonneg (root tree) ->
  0 < key < 2 ^ 63 ->
  exists res tree',
    InsertAVL garbage tree key value = Some (res, tree') /\
    allocation_index tree' /\ heights_nonneg (root tree') /\
    ((In (key, res) (regions (root tree)) /\
      regions (root tree') = regions (root tree)) \/
     (~ In key (map fst (regions (root tree))) /\
      In (key, value) (regions (root tree')))).
Proof.
  intros [Hcmp Hst] Hh Hkey. unfold InsertAVL. rewrite Hcmp.
  destruct (Insert_spec garbage key value (root tree) (size tree) 0 (2 ^ 63)
              Hh Hst ltac:(lia) ltac:(lia) Hkey)
    as (res & sz' & t' & EI & HI & NI & SI & CI).
  rewrite EI. cbn [obind].
  destruct t' as [| k v h l r d]; [ discriminate NI | ].
  simpl in HI. destruct HI as [_ [Hl Hr]].
  destruct (Balance_total k v h l r d Hl Hr)
    as (k' & v' & h' & l' & r' & d' & EB & HB & RB).
  rewrite EB. cbn [obind].
  do 2 eexists. split; [ reflexivity | ]. cbn [root comparator].
  split; [ | split; [ exact HB | ] ].
  - split; [ reflexivity | ]. cbn [root].
    rewrite search_tree_between, RB, <- search_tree_between. exact SI.
  - rewrite RB.
    destruct CI as [[C1 [C2 C3]] | [C1 [C2 [C3 [rs1 [rs2 [C4 C5]]]]]]].
    + left. split; assumption.
    + right. split; [ exact C1 | ].
      rewrite C5. apply in_or_app. right. left. reflexivity.
Qed.

(** *** [Remove] *)




(** A tree of two regions, [8192, 12288) and [16384, 24576). *)
Lemma FindRangeAVL_finds_covering_region_witness :
  let tree :=
    mkAVLTreeData
      (Node 8192 4096 2 NULL (Node 16384 8192 1 NULL NULL 0) 0)
      MyComparator 2 in
  region_of (FindRangeAVL tree 20000) = Some (16384, 8192) /\
  FindRangeAVL tree 4096 = NULL.
Proof.
  intros tree.
  assert (Hidx : allocation_index tree).
  { split; [ reflexivity | ]. simpl.
    change (2 ^ 63) with 9223372036854775808. lia. }
  assert (Hdis : regions_disjoint (regions (root tree))).
  { split.
    - intros r [<- | [<- | []]]; simpl;
        change (2 ^ 64) with 18446744073709551616; lia.
    - intros r1 r2 [<- | [<- | []]] [<- | [<- | []]] Hne;
        unfold disjoint; simpl; try lia; contradiction. }
  assert (Ha1 : 0 <= 20000 < 2 ^ 63)
    by (change (2 ^ 63) with 9223372036854775808; lia).
  assert (Ha2 : 0 <= 4096 < 2 ^ 63)
    by (change (2 ^ 63) with 9223372036854775808; lia).
  split.
  - destruct (FindRangeAVL_finds_covering_region tree 20000 Hidx Hdis Ha1)
      as [Hcov _].
    apply Hcov.
    + simpl. right. left. reflexivity.
    + unfold covers. simpl. lia.
  - destruct (FindRangeAVL_finds_covering_region tree 4096 Hidx Hdis Ha2)
      as [_ [Hnone _]].
    apply Hnone.
    intros r [<- | [<- | []]]; unfold covers; simpl; lia.
Defined.

(** C3.  Seven insertions into an empty index leave a tree in which the
    stored height of two nodes differs from the true height of their
    subtrees, and in which the subtrees of the node of base 20480 differ
    in height by two: [RotateSingleRight] computes the height of the node
    it moves down from [GetHeight(b)] twice, never from [c]. *)
Theorem InsertAVL_sequence_breaks_avl_invariant :
  let built :=
    insert_all 0 (CreateAVL MyComparator)
      [(4096, 4096); (8192, 4096); (20480, 4096); (24576, 4096);
       (28672, 4096); (16384, 4096); (12288, 4096)] in
  option_map root built =
    Some (Node 16384 4096 3
            (Node 8192 4096 2 (Node 4096 4096 1 NULL NULL 0)
               (Node 12288 4096 1 NULL NULL 0) 0)
            (Node 20480 4096 1 NULL
               (Node 24576 4096 1 NULL (Node 28672 4096 1 NULL NULL 0) 0) 0)
            0) /\
  option_map (fun t => heights_exact (root t)) built = Some false /\
  option_map (fun t => balanced (root t)) built = Some false /\
  GetHeight (Node 20480 4096 1 NULL
               (Node 24576 4096 1 NULL (Node 28672 4096 1 NULL NULL 0) 0) 0)
  = 1 /\
  true_height (Node 20480 4096 1 NULL
                 (Node 24576 4096 1 NULL (Node 28672 4096 1 NULL NULL 0) 0) 0)
  = 3.
Proof. vm_compute. repeat split; reflexivity. Qed.

(** The first of the two rotations that go wrong, on its own: the node
    moved down keeps a right subtree of height 1 and is given height 1. *)
Lemma RotateSingleRight_ignores_right_subtree :
  RotateSingleRight
    (Node 24576 4096 3 (Node 20480 4096 2 (Node 16384 4096 1 NULL NULL 0)
                          NULL 0)
       (Node 28672 4096 1 NULL NULL 0) 0)
  = Some (Node 20480 4096 2 (Node 16384 4096 1 NULL NULL 0)
            (Node 24576 4096 1 NULL (Node 28672 4096 1 NULL NULL 0) 0) 0).
Proof. reflexivity. Qed.

(** ** Before initialisation *)

(** C10.  While [MPI_Init] has not run and [NOT_MPI_APP] is unset, every
    public entry point returns its sentinel and leaves the state as it
    is: alloc and realloc return null, free returns -1, size_of returns
    0, whatever the arguments. *)
Theorem entry_points_before_init (st : State) :
  isMPIInitialized st = false -> notMPIApp st = 0 ->
  (forall ptr, ShmFreeWrapper ptr st = Some (-1, st)) /\
  (forall ptr, ShmGetSizeWrapper ptr st = 0) /\
  (forall ptmalloc_ret ptr len,
     ShmReallocWrapper ptmalloc_ret ptr len st = Some (0, st)) /\
  (forall sz, ShmMallocWrapper sz st = Some (0, st)).
Proof.
  intros Hinit Hnot.
  assert (Hc : CheckMPIInitialized st = false).
  { unfold CheckMPIInitialized. rewrite Hinit, Hnot. reflexivity. }
  repeat split; intros;
    unfold ShmFreeWrapper, ShmGetSizeWrapper, ShmReallocWrapper,
      ShmMallocWrapper; rewrite Hc; reflexivity.
Qed.

Lemma entry_points_before_init_witness :
  let st := initial_globals [] 0 in
  ShmFreeWrapper 4096 st = Some (-1, st) /\
  ShmGetSizeWrapper 4096 st = 0 /\
  ShmReallocWrapper 0 4096 8192 st = Some (0, st) /\
  ShmMallocWrapper 8192 st = Some (0, st).
Proof.
  intros st.
  destruct (entry_points_before_init st eq_refl eq_refl)
    as (Hf & Hg & Hr & Hm).
  split; [ apply Hf | split; [ apply Hg | split; [ apply Hr | apply Hm ] ] ].
Defined.

(** ** The merge pass *)

Lemma MergeNode2_again (e : Env) (k v d d' : Z) (pg pg' : Pages) :
  MergeNode2 e k v d pg = Some (d', pg') ->
  forall pg'', MergeNode2 e k v d' pg'' = Some (d', pg'').
Proof.
  unfold MergeNode2. intros H pg''.
  destruct (TranslateMmapAddr e k) as [off |]; [ | discriminate H ].
  cbn [obind] in *.
  destruct (off =? 0).
  - inversion H; subst. reflexivity.
  - unfold IsCloseToMmapLimit in *. cbv iota in *.
    destruct (d =? 0) eqn:Ed; cbn [negb] in H; cbv iota in H.
    + inversion H; subst. rewrite Ed. reflexivity.
    + destruct (MergeManyPages e k v pg) as [[n pg1] |];
        [ | discriminate H ].
      cbn [obind] in H. inversion H; subst. reflexivity.
Qed.

Lemma Traverse_MergeNode2_again (e : Env) (t : AVLTreeNode) :
  forall pg t1 pg1,
    Traverse (MergeNode2 e) t pg = Some (t1, pg1) ->
    forall pg', Traverse (MergeNode2 e) t1 pg' = Some (t1, pg').
Proof.
  induction t as [| k v h l IHl r IHr d]; intros pg t1 pg1 H pg'.
  - simpl in H. inversion H; subst. reflexivity.
  - cbn [Traverse] in H.
    destruct (Traverse (MergeNode2 e) l pg) as [[l' s1] |] eqn:El;
      [ | discriminate H ].
    cbn [obind] in H.
    destruct (MergeNode2 e k v d s1) as [[d' s2] |] eqn:Ed;
      [ | discriminate H ].
    cbn [obind] in H.
    destruct (Traverse (MergeNode2 e) r s2) as [[r' s3] |] eqn:Er;
      [ | discriminate H ].
    cbn [obind] in H. inversion H; subst.
    cbn [Traverse].
    rewrite (IHl _ _ _ El pg'). cbn [obind].
    rewrite (MergeNode2_again _ _ _ _ _ _ _ Ed pg'). cbn [obind].
    rewrite (IHr _ _ _ Er pg'). reflexivity.
Qed.

(** C7.  A merge pass run on the state that a merge pass has just left
    changes nothing: not the index and its dirty flags, not a bitmap, a
    counter, a mapping or the contents of memory. *)
Theorem merge_pass_idempotent (st st1 : State) :
  TraverseAVL_MergeNode2 st = Some st1 ->
  TraverseAVL_MergeNode2 st1 = Some st1.
Proof.
  unfold TraverseAVL_MergeNode2, merge_pass, TraverseAVL. intros H.
  destruct (allocRecord st) as [tree |] eqn:Etree; [ | discriminate H ].
  destruct (Traverse (MergeNode2 (env st)) (root tree) (pages st))
    as [[root1 pg1] |] eqn:Et; [ | discriminate H ].
  cbn [obind] in H. inversion H; subst. clear H.
  cbn [allocRecord set_pages set_allocRecord env pages root comparator size].
  rewrite (Traverse_MergeNode2_again _ _ _ _ _ Et pg1).
  reflexivity.
Qed.

Lemma merge_pass_idempotent_witness :
  exists st1,
    TraverseAVL_MergeNode2 (example_written [140737346588672; 1; 1])
    = Some st1 /\
    TraverseAVL_MergeNode2 st1 = Some st1.
Proof.
  destruct (TraverseAVL_MergeNode2
              (example_written [140737346588672; 1; 1])) as [st1 |] eqn:E.
  - exists st1. split; [ reflexivity | ].
    exact (merge_pass_idempotent _ _ E).
  - assert (H : is_some (TraverseAVL_MergeNode2
                           (example_written [140737346588672; 1; 1]))
                = true) by (vm_compute; reflexivity).
    rewrite E in H. discriminate H.
Defined.

(** ** The threshold policy *)

(** Taking apart an equation [f st = Some st']. *)
Ltac crush_some :=
  repeat match goal with
         | H : Some _ = Some _ |- _ => inversion H; subst; clear H
         | H : None = Some _ |- _ => discriminate H
         | H : obind ?m _ = Some _ |- _ =>
             let E := fresh "E" in destruct m eqn:E; cbn [obind] in H
         | H : option_map _ ?m = Some _ |- _ =>
             let E := fresh "E" in destruct m eqn:E; cbn [option_map] in H
         | H : (let '(_, _) := ?p in _) = Some _ |- _ =>
             let E := fresh "E" in destruct p eqn:E
         | H : match ?x with _ => _ end = Some _ |- _ =>
             let E := fresh "E" in destruct x eqn:E
         end.

Lemma MergeByTHRESHOLD_cases (st : State) :
  (countDownTimer st <> 1 ->
   MergeByTHRESHOLD st
   = Some (set_countDownTimer (countDownTimer st - 1) st)) /\
  (countDownTimer st = 1 -> page_count st < mergeMinMemTh st ->
   MergeByTHRESHOLD st = Some (set_countDownTimer 100 st)) /\
  (countDownTimer st = 1 -> mergeMinMemTh st <= page_count st ->
   MergeByTHRESHOLD st
   = TraverseAVL_MergeNode2
       (set_mergeMinMemTh (page_count st) (set_countDownTimer 100 st))).
Proof.
  unfold MergeByTHRESHOLD, page_count.
  cbn [countDownTimer set_countDownTimer pages mergeMinMemTh].
  repeat split.
  - intros Hcd. destruct (Z.eqb_spec (countDownTimer st - 1) 0); [ lia | ].
    reflexivity.
  - intros Hcd Hlt. rewrite Hcd. simpl.
    destruct (Z.geb_spec
                (allProcPrivatePageCount (pages st)
                 + sharedPageCount (pages st)) (mergeMinMemTh st));
      [ lia | reflexivity ].
  - intros Hcd Hge. rewrite Hcd. simpl.
    destruct (Z.geb_spec
                (allProcPrivatePageCount (pages st)
                 + sharedPageCount (pages st)) (mergeMinMemTh st));
      [ reflexivity | lia ].
Qed.

Lemma TraverseAVL_MergeNode2_frame (st st' : State) :
  TraverseAVL_MergeNode2 st = Some st' ->
  mergeMinMemTh st' = mergeMinMemTh st /\ env st' = env st /\
  isMPIInitialized st' = isMPIInitialized st /\
  isMPIFinalized st' = isMPIFinalized st /\ notMPIApp st' = notMPIApp st.
Proof.
  unfold TraverseAVL_MergeNode2. intros H. crush_some.
  simpl. auto.
Qed.

Lemma MergeByTHRESHOLD_monotone (st st' : State) :
  MergeByTHRESHOLD st = Some st' -> mergeMinMemTh st <= mergeMinMemTh st'.
Proof.
  intros H. destruct (MergeByTHRESHOLD_cases st) as (C1 & C2 & C3).
  destruct (Z.eq_dec (countDownTimer st) 1) as [E | N].
  - destruct (Z_lt_le_dec (page_count st) (mergeMinMemTh st)) as [L | G].
    + rewrite (C2 E L) in H. inversion H; subst. simpl. lia.
    + rewrite (C3 E G) in H.
      apply TraverseAVL_MergeNode2_frame in H. destruct H as [H _].
      rewrite H. simpl. exact G.
  - rewrite (C1 N) in H. inversion H; subst. simpl. lia.
Qed.

Lemma MergeByALLOC_FREQUENCY_frame (st st' : State) :
  MergeByALLOC_FREQUENCY st = Some st' ->
  mergeMinMemTh st' = mergeMinMemTh st /\ env st' = env st /\
  isMPIInitialized st' = isMPIInitialized st /\
  isMPIFinalized st' = isMPIFinalized st /\ notMPIApp st' = notMPIApp st.
Proof.
  unfold MergeByALLOC_FREQUENCY. intros H.
  cbn [mallocRefFreq mallocRefCounter set_mallocRefCounter] in H.
  destruct (u64 (mallocRefFreq st) =? 0); [ discriminate H | ].
  destruct (u64 (mallocRefCounter st + 1) mod u64 (mallocRefFreq st) =? 0).
  - crush_some.
    match goal with
    | E : TraverseAVL_MergeNode2 _ = Some _ |- _ =>
        apply TraverseAVL_MergeNode2_frame in E;
        destruct E as (F1 & F2 & F3 & F4 & F5)
    end.
    simpl in *. auto.
  - inversion H; subst. simpl. auto.
Qed.

Lemma MergeByBUFFERED_frame (st st' : State) :
  MergeByBUFFERED st = Some st' -> mergeMinMemTh st' = mergeMinMemTh st.
Proof. unfold MergeByBUFFERED. intros H. crush_some. reflexivity. Qed.

Lemma SigSegvHandler_monotone (a : Z) (w : bool) (st st' : State) :
  SigSegvHandler a w st = Some st' -> mergeMinMemTh st <= mergeMinMemTh st'.
Proof.
  unfold SigSegvHandler. intros H.
  destruct w; [ | discriminate H ].
  match type of H with
  | obind ?m _ = _ => destruct m as [st0 |] eqn:E0; [ | discriminate H ]
  end.
  cbn [obind] in H.
  assert (H0 : mergeMinMemTh st0 = mergeMinMemTh st).
  { clear H. crush_some; try reflexivity.
    match goal with
    | E : MergeByBUFFERED _ = Some _ |- _ =>
        apply MergeByBUFFERED_frame in E; simpl; exact E
    end. }
  rewrite <- H0. clear E0 H0.
  match type of H with
  | obind ?m _ = _ => destruct m as [[b bv] |] eqn:E1; [ | discriminate H ]
  end.
  cbn [obind] in H.
  match type of H with
  | obind ?m _ = _ => destruct m as [pg |] eqn:E2; [ | discriminate H ]
  end.
  cbn [obind] in H. clear E1 E2.
  destruct (mergeMetric (env st) =? THRESHOLD).
  - apply MergeByTHRESHOLD_monotone in H. simpl in H. exact H.
  - inversion H; subst. simpl. lia.
Qed.

Lemma app_store_monotone (a v : Z) (st st' : State) :
  app_store a v st = Some st' -> mergeMinMemTh st <= mergeMinMemTh st'.
Proof.
  unfold app_store. intros H.
  destruct (vm (pages st) a) as [m |]; [ | discriminate H ].
  destruct (writable m).
  - crush_some. simpl. lia.
  - destruct (SigSegvHandler a true st) as [st0 |] eqn:E;
      [ | discriminate H ].
    cbn [obind] in H. apply SigSegvHandler_monotone in E.
    crush_some. simpl. exact E.
Qed.

Lemma app_memcpy_loop_monotone (n : nat) :
  forall dst src st st',
    app_memcpy_loop dst src n st = Some st' ->
    mergeMinMemTh st <= mergeMinMemTh st'.
Proof.
  induction n as [| n IH]; intros dst src st st' H.
  - simpl in H. inversion H; subst. lia.
  - cbn [app_memcpy_loop] in H.
    destruct (load (pages st) src); [ | discriminate H ].
    cbn [obind] in H.
    destruct (app_store dst z st) as [st0 |] eqn:E; [ | discriminate H ].
    cbn [obind] in H.
    apply app_store_monotone in E. apply IH in H. lia.
Qed.

Lemma AspaceAvlInsertWrapper_frame (a len : Z) (st st' : State) :
  AspaceAvlInsertWrapper a len st = Some st' ->
  mergeMinMemTh st' = mergeMinMemTh st /\ env st' = env st /\
  pages st' = pages st /\
  isMPIInitialized st' = isMPIInitialized st /\
  isMPIFinalized st' = isMPIFinalized st /\ notMPIApp st' = notMPIApp st.
Proof.
  unfold AspaceAvlInsertWrapper. intros H. crush_some; simpl; auto 10.
Qed.

Lemma ShmMallocWrapper_monotone (sz p : Z) (st st' : State) :
  ShmMallocWrapper sz st = Some (p, st') ->
  mergeMinMemTh st' = mergeMinMemTh st.
Proof.
  unfold ShmMallocWrapper. intros H.
  destruct (CheckMPIInitialized st); cbn [negb] in H;
    [ | inversion H; reflexivity ].
  destruct (isMPIFinalized st); [ inversion H; reflexivity | ].
  unfold IsCloseToMmapLimit in H. cbv iota in H.
  match type of H with
  | obind ?m _ = _ => destruct m as [st0 |] eqn:E0; [ | discriminate H ]
  end.
  cbn [obind] in H.
  assert (H0 : mergeMinMemTh st0 = mergeMinMemTh st).
  { destruct (mergeMetric (env st) =? ALLOC_FREQUENCY).
    - apply MergeByALLOC_FREQUENCY_frame in E0. tauto.
    - inversion E0; reflexivity. }
  rewrite <- H0. clear E0 H0.
  crush_some; try reflexivity.
  match goal with
  | E : AspaceAvlInsertWrapper _ _ _ = Some _ |- _ =>
      apply AspaceAvlInsertWrapper_frame in E; destruct E as [E _];
      rewrite E; reflexivity
  end.
Qed.

Lemma ShmFreeWrapper_monotone (ptr r : Z) (st st' : State) :
  ShmFreeWrapper ptr st = Some (r, st') ->
  mergeMinMemTh st' = mergeMinMemTh st.
Proof.
  unfold ShmFreeWrapper, AspaceAvlRemoveWrapper. intros H.
  destruct (CheckMPIInitialized st); cbn [negb] in H;
    [ | inversion H; reflexivity ].
  crush_some; reflexivity.
Qed.

Lemma ShmReallocWrapper_monotone (pt ptr len r : Z) (st st' : State) :
  ShmReallocWrapper pt ptr len st = Some (r, st') ->
  mergeMinMemTh st <= mergeMinMemTh st'.
Proof.
  unfold ShmReallocWrapper. intros H.
  destruct (CheckMPIInitialized st); cbn [negb] in H;
    [ | inversion H; lia ].
  destruct (AspaceAvlSearchWrapper ptr st <=? 0); [ inversion H; lia | ].
  destruct (AspaceAvlSearchWrapper ptr st >=? len); [ inversion H; lia | ].
  destruct (ShmMallocWrapper len st) as [[np st1] |] eqn:E1;
    [ | discriminate H ].
  cbn [obind] in H. apply ShmMallocWrapper_monotone in E1.
  destruct ((if np =? 0 then pt else np) =? 0).
  - inversion H; subst. lia.
  - match type of H with
    | obind ?m _ = _ => destruct m as [st2 |] eqn:E2; [ | discriminate H ]
    end.
    cbn [obind] in H. unfold app_memcpy in E2.
    apply app_memcpy_loop_monotone in E2.
    destruct (ShmFreeWrapper ptr st2) as [[r3 st3] |] eqn:E3;
      [ | discriminate H ].
    cbn [obind] in H. apply ShmFreeWrapper_monotone in E3.
    inversion H; subst. lia.
Qed.

Lemma step_monotone (op : Op) (st st' : State) :
  step op st = Some st' -> mergeMinMemTh st <= mergeMinMemTh st'.
Proof.
  destruct op; cbn [step]; intros H.
  - destruct (ShmMallocWrapper sz st) as [[p s] |] eqn:E; [ | discriminate H ].
    inversion H; subst. apply ShmMallocWrapper_monotone in E. simpl. lia.
  - destruct (ShmReallocWrapper ptmalloc_ret ptr len st) as [[p s] |] eqn:E;
      [ | discriminate H ].
    inversion H; subst. apply ShmReallocWrapper_monotone in E. exact E.
  - destruct (ShmFreeWrapper ptr st) as [[p s] |] eqn:E; [ | discriminate H ].
    inversion H; subst. apply ShmFreeWrapper_monotone in E. simpl. lia.
  - eapply app_store_monotone; eauto.
  - eapply SigSegvHandler_monotone; eauto.
  - apply MergeByTHRESHOLD_monotone; assumption.
  - apply MergeByALLOC_FREQUENCY_frame in H. lia.
  - apply MergeByBUFFERED_frame in H. lia.
Qed.

Lemma run_monotone (ops : list Op) :
  forall st st', run ops st = Some st' ->
                 mergeMinMemTh st <= mergeMinMemTh st'.
Proof.
  induction ops as [| op ops IH]; intros st st' H.
  - simpl in H. inversion H; subst. lia.
  - cbn [run] in H.
    destruct (step op st) as [st0 |] eqn:E; [ | discriminate H ].
    cbn [obind] in H. apply step_monotone in E. apply IH in H. lia.
Qed.

(** C6.  Under the threshold policy the countdown gates the test: a call
    that does not bring it to zero only decrements it.  When the test is
    evaluated, a scan runs only if the private-plus-shared page count is at
    least the threshold, and the threshold is then set to that count; below
    the threshold only the countdown is reset.  Whatever the process does
    (alloc, realloc, free, writes, faults, any policy entry), the threshold
    never decreases. *)
Theorem threshold_is_monotone_high_water_mark :
  (forall st, countDownTimer st <> 1 ->
     MergeByTHRESHOLD st
     = Some (set_countDownTimer (countDownTimer st - 1) st)) /\
  (forall st, countDownTimer st = 1 ->
     page_count st < mergeMinMemTh st ->
     MergeByTHRESHOLD st = Some (set_countDownTimer 100 st)) /\
  (forall st, countDownTimer st = 1 ->
     mergeMinMemTh st <= page_count st ->
     MergeByTHRESHOLD st
     = TraverseAVL_MergeNode2
         (set_mergeMinMemTh (page_count st) (set_countDownTimer 100 st)) /\
     forall st', MergeByTHRESHOLD st = Some st' ->
                 mergeMinMemTh st' = page_count st) /\
  (forall ops st st', run ops st = Some st' ->
     mergeMinMemTh st <= mergeMinMemTh st').
Proof.
  split; [ | split; [ | split ] ].
  - intros st. apply MergeByTHRESHOLD_cases.
  - intros st. apply MergeByTHRESHOLD_cases.
  - intros st Hcd Hge.
    destruct (MergeByTHRESHOLD_cases st) as (_ & _ & C3).
    split; [ exact (C3 Hcd Hge) | ].
    intros st' H. rewrite (C3 Hcd Hge) in H.
    apply TraverseAVL_MergeNode2_frame in H. destruct H as [H _].
    rewrite H. reflexivity.
  - intros ops. apply run_monotone.
Qed.

Lemma threshold_is_monotone_high_water_mark_witness :
  MergeByTHRESHOLD (initial_globals [] 0)
  = Some (set_countDownTimer 99 (initial_globals [] 0)) /\
  exists st',
    MergeByTHRESHOLD example_threshold_reached = Some st' /\
    mergeMinMemTh example_threshold_reached = 100 /\
    mergeMinMemTh st' = 195.
Proof.
  destruct threshold_is_monotone_high_water_mark as (G & _ & S & _).
  split.
  - apply (G (initial_globals [] 0)). simpl. discriminate.
  - assert (Hcd : countDownTimer example_threshold_reached = 1)
      by reflexivity.
    assert (Hpc : page_count example_threshold_reached = 195)
      by (vm_compute; reflexivity).
    assert (Hth : mergeMinMemTh example_threshold_reached = 100)
      by reflexivity.
    destruct (S example_threshold_reached Hcd ltac:(rewrite Hpc, Hth; lia))
      as [_ Hraise].
    destruct (MergeByTHRESHOLD example_threshold_reached) as [st' |] eqn:E.
    + exists st'. split; [ reflexivity | split; [ exact Hth | ] ].
      rewrite (Hraise st' eq_refl). exact Hpc.
    + assert (H : is_some (MergeByTHRESHOLD example_threshold_reached)
                  = true) by (vm_compute; reflexivity).
      rewrite E in H. discriminate H.
Defined.

(** ** Joining the cohort *)



Lemma store_range_aliveProcs (xs : list Z) :
  forall pg a pg', store_range pg a xs = Some pg' ->
                   aliveProcs pg' = aliveProcs pg.
Proof.
  induction xs as [| x xs IH]; intros pg a pg' H.
  - simpl in H. inversion H; reflexivity.
  - cbn [store_range] in H.
    destruct (store pg a x) as [pg0 |] eqn:E; [ | discriminate H ].
    cbn [obind] in H. apply IH in H. rewrite H.
    unfold store in E.
    destruct (vm pg a) as [m |]; [ | discriminate E ].
    destruct (writable m); [ | discriminate E ].
    destruct (backing m); inversion E; reflexivity.
Qed.





(** ** An aborted batch *)

(** C2.  When the kernel refuses the second mapping of a zero run of two
    pages, [RemapToZero] returns before it writes any zero bit: the first
    page is left mapped read-only onto frame 0 of the shared file, counted
    as a zero page and no longer as a private one, with its zero bit and
    its holder bit clear.  A later write to that page is classified by the
    fault handler as neither zero nor shared, nothing is remapped, and the
    write never completes. *)
Theorem RemapToZero_abort_leaves_zero_bit_clear :
  option_map
    (fun '(merged, pg) =>
       (merged,
        vm pg example_base, vm pg (example_base + 4096),
        GetBit (env example_refused) (zeroPagesBV pg) example_base,
        GetSharingBit (env example_refused) pg example_base,
        zeroPageCount pg,
        allProcPrivatePageCount (pages example_refused)
        - allProcPrivatePageCount pg,
        is_some (app_store example_base 7 (set_pages pg example_refused))))
    (MergeManyPages (env example_refused) example_base 8192
       (pages example_refused))
  = Some (2,
          Some (mkMapping (SharedFile 0) false),
          Some (mkMapping Anonymous true),
          Some false, Some false, 1, 1, false).
Proof. vm_compute. reflexivity. Qed.

(** ** Free *)














(** ** Allocation *)

Lemma round_up_to_page (sz P : Z) :
  0 < P -> 0 <= sz -> sz + P <= 2 ^ 64 ->
  let len := u64 (u64 (sz + P - 1) / P * P) in
  len mod P = 0 /\ sz <= len < sz + P.
Proof.
  intros HP Hsz Hfit.
  change (2 ^ 64) with 18446744073709551616 in Hfit.
  assert (Hdm := Z.div_mod (sz + P - 1) P ltac:(lia)).
  assert (Hmb := Z.mod_pos_bound (sz + P - 1) P HP).
  assert (Hq : 0 <= (sz + P - 1) / P) by (apply Z.div_pos; lia).
  set (q := (sz + P - 1) / P) in *.
  set (r := (sz + P - 1) mod P) in *.
  assert (Hlen : u64 (u64 (sz + P - 1) / P * P) = P * q).
  { unfold u64. change (2 ^ 64) with 18446744073709551616.
    rewrite (Z.mod_small (sz + P - 1)) by lia.
    fold q. rewrite (Z.mul_comm q P). apply Z.mod_small. lia. }
  cbv zeta. rewrite Hlen.
  split; [ rewrite Z.mul_comm; apply Z.mod_mul; lia | lia ].
Qed.

Lemma SH_MMAP_refused (addr len : Z) (w f : bool) (file : option Z)
    (pg : Pages) :
  kernel pg = [] \/ (exists ks, kernel pg = MAP_FAILED :: ks) ->
  fst (SH_MMAP addr len w f file pg) = MAP_FAILED /\
  vm (snd (SH_MMAP addr len w f file pg)) = vm pg.
Proof.
  unfold SH_MMAP, mmap64. cbn [kernel set_mmapCount].
  intros [E | [ks E]]; rewrite E.
  - split; reflexivity.
  - rewrite Z.eqb_refl. split; reflexivity.
Qed.

Lemma SH_MMAP_granted (len k : Z) (ks : list Z) (pg : Pages) :
  kernel pg = k :: ks -> k <> MAP_FAILED ->
  fst (SH_MMAP 0 len false false None pg) = k /\
  forall a, k <= a < k + len ->
    vm (snd (SH_MMAP 0 len false false None pg)) a
    = Some (mkMapping Anonymous false).
Proof.
  unfold SH_MMAP, mmap64. cbn [kernel set_mmapCount].
  intros E Hk. rewrite E.
  destruct (Z.eqb_spec k MAP_FAILED); [ contradiction | ].
  split; [ reflexivity | ].
  intros a Ha. cbn [snd vm set_mem set_vm set_kernel]. unfold in_range.
  destruct (Z.leb_spec k a); [ | lia ].
  destruct (Z.ltb_spec a (k + len)); [ | lia ].
  reflexivity.
Qed.

(** C9.  [alloc] returns null, leaving the state as it is, when the layer
    is not initialised or is in teardown.  Otherwise it rounds the request
    up to a multiple of the page size (for requests that do not wrap the
    machine word) and, after the allocation-frequency policy has had its
    turn, asks the kernel for an anonymous private read-only mapping of
    that size: if the kernel refuses, the result is null and neither the
    index nor any mapping changes; if the kernel grants it at [k], the
    result is [k], every byte of [k, k+len) is mapped anonymous and
    read-only, and the region is recorded in the index under [k] with the
    rounded size, unless [k] was already a recorded base. *)
Theorem ShmMallocWrapper_allocates_read_only_region (sz : Z) (st : State) :
  (CheckMPIInitialized st = false \/ isMPIFinalized st = true ->
   ShmMallocWrapper sz st = Some (0, st)) /\
  (CheckMPIInitialized st = true -> isMPIFinalized st = false ->
   forall st1,
     (if mergeMetric (env st) =? ALLOC_FREQUENCY
      then MergeByALLOC_FREQUENCY st else Some st) = Some st1 ->
     let P := PAGE_SIZE (env st) in
     let len := u64 (u64 (sz + P - 1) / P * P) in
     (0 < P -> 0 <= sz -> sz + P <= 2 ^ 64 ->
      len mod P = 0 /\ sz <= len < sz + P) /\
     (kernel (pages st1) = [] \/
      (exists ks, kernel (pages st1) = MAP_FAILED :: ks) ->
      exists st2,
        ShmMallocWrapper sz st = Some (0, st2) /\
        allocRecord st2 = allocRecord st1 /\
        vm (pages st2) = vm (pages st1)) /\
     (forall k ks tree,
        kernel (pages st1) = k :: ks -> k <> MAP_FAILED ->
        allocRecord st1 = Some tree -> allocation_index tree ->
        heights_nonneg (root tree) -> 0 < k < 2 ^ 63 ->
        exists st2 tree2,
          ShmMallocWrapper sz st = Some (k, st2) /\
          (forall a, k <= a < k + len ->
             vm (pages st2) a = Some (mkMapping Anonymous false)) /\
          allocRecord st2 = Some tree2 /\ allocation_index tree2 /\
          heights_nonneg (root tree2) /\
          (~ In k (map fst (regions (root tree))) ->
           In (k, len) (regions (root tree2)) /\
           ShmGetSizeWrapper k st2 = len))).
Proof.
  split.
  - intros [H | H]; unfold ShmMallocWrapper.
    + rewrite H. reflexivity.
    + rewrite H. destruct (CheckMPIInitialized st); reflexivity.
  - intros Hinit Hfin st1 Hpol P len.
    assert (Hframe : isMPIInitialized st1 = isMPIInitialized st /\
                     notMPIApp st1 = notMPIApp st).
    { destruct (mergeMetric (env st) =? ALLOC_FREQUENCY).
      - apply MergeByALLOC_FREQUENCY_frame in Hpol. tauto.
      - inversion Hpol; subst. split; reflexivity. }
    assert (Hunfold :
              ShmMallocWrapper sz st
              = (let '(ptr, pg) :=
                   SH_MMAP 0 len false false None (pages st1) in
                 let st := set_pages pg st1 in
                 if ptr =? MAP_FAILED then Some (0, st)
                 else st <- AspaceAvlInsertWrapper ptr len st ;;
                      Some (ptr, st))).
    { unfold ShmMallocWrapper. rewrite Hinit, Hfin. cbn [negb].
      unfold IsCloseToMmapLimit. cbv iota. rewrite Hpol. reflexivity. }
    split; [ | split ].
    + apply round_up_to_page.
    + intros Hk. rewrite Hunfold.
      destruct (SH_MMAP_refused 0 len false false None (pages st1) Hk)
        as [Hr Hv].
      destruct (SH_MMAP 0 len false false None (pages st1)) as [ptr pg].
      cbn [fst snd] in Hr, Hv. subst ptr. rewrite Z.eqb_refl.
      eexists. split; [ reflexivity | ]. split; [ reflexivity | exact Hv ].
    + intros k ks tree Hk Hne Htree Hidx Hh Hkr. rewrite Hunfold.
      destruct (SH_MMAP_granted len k ks (pages st1) Hk Hne) as [Hr Hv].
      destruct (SH_MMAP 0 len false false None (pages st1)) as [ptr pg].
      cbn [fst snd] in Hr, Hv. subst ptr.
      destruct (Z.eqb_spec k MAP_FAILED); [ contradiction | ].
      destruct (InsertAVL_spec (heap_garbage st1) k len tree Hidx Hh Hkr)
        as (res & tree2 & EI & Hidx2 & Hh2 & Hcase).
      unfold AspaceAvlInsertWrapper.
      cbn [allocRecord set_pages heap_garbage]. rewrite Htree, EI.
      cbn [obind].
      do 2 eexists. split; [ reflexivity | ].
      cbn [pages set_allocRecord set_pages allocRecord].
      split; [ exact Hv | ]. split; [ reflexivity | ].
      split; [ exact Hidx2 | ]. split; [ exact Hh2 | ].
      intros HnIn. destruct Hcase as [[C1 _] | [_ C2]].
      * exfalso. apply HnIn. apply in_map_iff.
        exists (k, res). split; [ reflexivity | exact C1 ].
      * split; [ exact C2 | ].
        unfold ShmGetSizeWrapper, CheckMPIInitialized,
          AspaceAvlSearchWrapper, FindAVL.
        cbn [isMPIInitialized notMPIApp allocRecord set_allocRecord
               set_pages].
        destruct Hframe as [F1 F2]. rewrite F1, F2.
        unfold CheckMPIInitialized in Hinit. rewrite Hinit. cbn [negb].
        destruct Hidx2 as [Hcmp2 Hst2]. rewrite Hcmp2.
        apply (FindAVL_loop_In (root tree2) 0 (2 ^ 63) k len);
          auto; lia.
Qed.



Lemma ShmMallocWrapper_allocates_read_only_region_witness :
  exists st2,
    ShmMallocWrapper 8192 (example_initialized [example_base])
    = Some (example_base, st2) /\
    vm (pages st2) (example_base + 8191) = Some (mkMapping Anonymous false) /\
    ShmGetSizeWrapper example_base st2 = 8192.
Proof.
  set (st := example_initialized [example_base]).
  destruct (ShmMallocWrapper_allocates_read_only_region 8192 st)
    as [_ Halloc].
  assert (Hinit : CheckMPIInitialized st = true) by (vm_compute; reflexivity).
  assert (Hfin : isMPIFinalized st = false) by (vm_compute; reflexivity).
  assert (Hpol : (if mergeMetric (env st) =? ALLOC_FREQUENCY
                  then MergeByALLOC_FREQUENCY st else Some st) = Some st).
  { assert (Hm : (mergeMetric (env st) =? ALLOC_FREQUENCY) = false)
      by (vm_compute; reflexivity).
    rewrite Hm. reflexivity. }
  specialize (Halloc Hinit Hfin st Hpol). cbv zeta in Halloc.
  assert (Hlen : u64 (u64 (8192 + PAGE_SIZE (env st) - 1)
                      / PAGE_SIZE (env st) * PAGE_SIZE (env st)) = 8192)
    by (vm_compute; reflexivity).
  rewrite Hlen in Halloc.
  destruct Halloc as (_ & _ & Hgrant).
  destruct (Hgrant example_base [] (mkAVLTreeData NULL MyComparator 0))
    as (st2 & tree2 & E & Hvm & _ & _ & _ & Hrec).
  - vm_compute. reflexivity.
  - vm_compute. discriminate.
  - reflexivity.
  - split; [ reflexivity | ]. simpl.
    change (2 ^ 63) with 9223372036854775808. lia.
  - exact I.
  - unfold example_base. change (2 ^ 63) with 9223372036854775808. lia.
  - exists st2. split; [ exact E | split ].
    + apply Hvm. lia.
    + apply Hrec. simpl. tauto.
Defined.

(** Initialised and not in teardown, but the kernel refuses the mapping:
    [alloc(8192)] returns null and records nothing. *)
Lemma ShmMallocWrapper_refused_returns_null :
  CheckMPIInitialized (example_initialized [MAP_FAILED]) = true /\
  isMPIFinalized (example_initialized [MAP_FAILED]) = false /\
  option_map
    (fun '(p, st') => (p, option_map (fun t => regions (root t))
                            (allocRecord st'),
                       vm (pages st') example_base))
    (ShmMallocWrapper 8192 (example_initialized [MAP_FAILED]))
  = Some (0, Some [], None).
Proof. repeat split; vm_compute; reflexivity. Qed.

(** ** Reallocation *)



